(** * SimCLR training loop (dl_training/self_supervision/sim_clr.py)

    A shallow embedding of the contrastive training loop of
    [sim_clr.py]: the paired-augmentation dataset adapters, the
    per-batch train / test cycle with its metric bookkeeping, and the
    feature-averaging evaluation with its three guards.

    The host framework (model, optimizer, loss, metrics, visualizer,
    data loader) is external to the file; it is taken as an interface
    ([Host]) whose operations act on an abstract world.  Python and
    NumPy behaviour the code relies on (int to float conversion,
    [np.array] on nested lists, [swapaxes], argument binding) is
    written out below. *)

From Stdlib Require Import ZArith QArith Lia List.
From stdpp Require Import gmap strings list fin_maps.

Open Scope string_scope.
Open Scope Z_scope.

(** ** Python exceptions raised by the code or by the runtime under it *)

Inductive exn : Type :=
| AssertionError (msg : string)
| ValueError (msg : string)
| TypeError (msg : string)
| IndexError (msg : string)
| OverflowError (msg : string)
| AttributeError (msg : string)
| ZeroDivisionError (msg : string).

Definition is_AssertionError (e : exn) : bool :=
  match e with AssertionError _ => true | _ => false end.

Definition is_ValueError (e : exn) : bool :=
  match e with ValueError _ => true | _ => false end.

(** ** Python numbers: [int] is [Z]; a [float] holding the image of an
    [int] is a rational.

    [float(n)] for an [int] rounds to the nearest binary64 value, ties
    to even, and raises [OverflowError] from [2^1024] on.  Below
    [2^53] the conversion is exact. *)

Definition float_of_int (n : Z) : exn + Q :=
  let a := Z.abs n in
  if a <? 2 ^ 53 then inr (inject_Z n)
  else
    let e := Z.log2 a - 52 in
    let q := a / 2 ^ e in
    let r := a mod 2 ^ e in
    let half := 2 ^ (e - 1) in
    let q' := if (half <? r) || ((r =? half) && Z.odd q) then q + 1 else q in
    let v := q' * 2 ^ e in
    if 2 ^ 1024 <=? v
    then inl (OverflowError "int too large to convert to float")
    else inr (inject_Z (Z.sgn n * v)).

(** [n / 2.0]: the int operand is converted, the division by two of a
    binary64 value of magnitude at least one (or zero) is exact. *)
Definition truediv_2 (n : Z) : exn + Q :=
  match float_of_int n with
  | inl e => inl e
  | inr x => inr (Qdiv x (inject_Z 2))
  end.

(** [k == x] between an [int] and a [float] compares the exact values. *)
Definition int_eq_float (k : Z) (x : Q) : bool := Qeq_bool (inject_Z k) x.

(** [assert M//2 == M/2.0, "Nb of feature vectors averaged should be odd"] *)
Definition even_sample_count_check (M : Z) : exn + unit :=
  match truediv_2 M with
  | inl e => inl e
  | inr h =>
      if int_eq_float (M / 2) h then inr tt
      else inl (AssertionError "Nb of feature vectors averaged should be odd")
  end.

(** ** NumPy arrays built from nested Python lists *)

Section NumPy.
Context {A : Type}.

(** [np.array] of a list of lists: the empty list gives the
    one-dimensional array of shape (0,); rows of one length give a
    two-dimensional array; ragged rows are refused (NumPy >= 1.24). *)
Inductive ndarray : Type :=
| Array1
| Array2 (nrows ncols : nat) (cells : list (list A)).

Definition shape (a : ndarray) : list nat :=
  match a with
  | Array1 => [0%nat]
  | Array2 m n _ => [m; n]
  end.

Definition np_array (rows : list (list A)) : exn + ndarray :=
  match rows with
  | [] => inr Array1
  | r :: rs =>
      if forallb (fun r' => Nat.eqb (length r') (length r)) rs
      then inr (Array2 (length rows) (length r) rows)
      else inl (ValueError "setting an array element with a sequence. The requested array has an inhomogeneous shape")
  end.

(** [a[0,:]] *)
Definition index_row0 (a : ndarray) : exn + list A :=
  match a with
  | Array2 _ _ (r :: _) => inr r
  | _ => inl (IndexError "too many indices for array")
  end.

(** [np.all(row == a)], the row broadcast against every row of [a]. *)
Definition np_all_eq (eqb : A -> A -> bool) (row : list A) (a : ndarray) : bool :=
  match a with
  | Array1 => true
  | Array2 _ _ cells =>
      forallb (fun r => forallb (fun p => eqb (fst p) (snd p)) (combine row r)) cells
  end.

Definition transpose (n : nat) (cells : list (list A)) : list (list A) :=
  List.map (fun j => omap (fun r : list A => r !! j) cells) (seq 0 n).

(** [a.swapaxes(0, 1)] *)
Definition swapaxes01 (a : ndarray) : exn + ndarray :=
  match a with
  | Array1 => inl (ValueError "axis2: axis 1 is out of bounds for array of dimension 1")
  | Array2 m n cells => inr (Array2 n m (transpose n cells))
  end.
End NumPy.

Arguments ndarray : clear implicits.

(** ** The host framework

    Everything [SimCLR] receives from [Base] and from its caller: the
    model, the optimizer, the loss callable, the metrics mapping and
    the visualizer.  Their calls read and change an abstract world
    (parameters, gradients, optimizer and loss state). *)

Class Host : Type := {
  World : Type;
  View : Type;            (* one augmented view of one sample *)
  Feat : Type;            (* one row of the model's output *)
  Label : Type;           (* one entry of [dataitem.labels] *)
  Tensor : Type;          (* the loss value, before [float] *)
  Out : Type;             (* an extra output of the loss: logits, target *)
  Num : Type;             (* Python numbers stored in [values] *)
  Visuals : Type;
  Visualizer : Type;

  label_eqb : Label -> Label -> bool;          (* elementwise [==] *)

  model_train : World -> World;                (* self.model.train() *)
  model_eval : World -> World;                 (* self.model.eval() *)
  model_call : list View -> World -> list Feat * World;   (* self.model(x) *)
  (* hasattr(self.model, "get_current_visuals") *)
  get_current_visuals : option (World -> Visuals * World);

  zero_grad : World -> World;                  (* self.optimizer.zero_grad() *)
  optimizer_step : World -> World;             (* self.optimizer.step() *)

  (* self.loss(z_i, z_j) and self.loss(z_i, z_j, labels) *)
  loss_call : list Feat -> list Feat -> option (list Label) -> World ->
              (Tensor * list (option Out)) * World;
  backward : Tensor -> World -> World;         (* batch_loss.backward() *)
  (* hasattr(self.loss, 'get_aux_losses'), and its items *)
  get_aux_losses : option (World -> list (string * Num) * World);

  metrics : list (string * (Out -> Out -> Num));   (* self.metrics.items() *)

  refresh_current_metrics : Visualizer -> World -> World;
  display_images : Visualizer -> Visuals -> World -> World;

  num_zero : Num;                              (* the int 0 *)
  num_add : Num -> Num -> Num;                 (* x + y *)
  num_div : Num -> nat -> Num;                 (* x / nb_batch, nb_batch not 0 *)
  py_float : Num -> Num;                       (* float(x) *)
  tensor_float : Tensor -> Num;                (* float(batch_loss) *)
  out_truthy : Out -> bool;                    (* bool(x) *)
  np_mean : list Num -> Num;                   (* np.mean *)
  np_concatenate : list Visuals -> Visuals;    (* np.concatenate(_, axis=0) *)

  (* the keys of a dict are distinct *)
  metrics_nodup : NoDup (List.map fst metrics);
  aux_losses_nodup :
    forall f w, get_aux_losses = Some f -> NoDup (List.map fst (fst (f w)))
}.

(** ** Data yielded by the loader *)

Inductive Sampler : Type :=
| SequentialSampler
| RandomSampler
| OtherSampler (name : string).

(** [isinstance(loader.sampler, SequentialSampler)] *)
Definition is_sequential (s : Sampler) : bool :=
  match s with SequentialSampler => true | _ => false end.

Section Data.
Context `{Host}.

(** A batch: [inputs] has shape (B, 2, ...), one pair of views per
    sample; [labels] is [None] or one label per sample. *)
Record DataItem : Type := {
  inputs : list (View * View);
  labels : option (list Label)
}.

(** A data loader: its sampler and, for each traversal
    [for dataitem in loader] (numbered from 0 within a call), the
    batches it yields.  The augmentations are drawn afresh on every
    traversal, so the batches depend on the traversal. *)
Record Loader : Type := {
  sampler : Sampler;
  batches : nat -> list DataItem
}.

(** [len(loader)]: the number of batches of a traversal. *)
Definition len (loader : Loader) : nat := length (batches loader 0).

(** What the calls did, in order. *)
Inductive Event : Type :=
| EvTrainMode
| EvEvalMode
| EvZeroGrad
| EvModel (x : list View) (z : list Feat)
| EvLoss (z_i z_j : list Feat) (lbl : option (list Label))
         (res : Tensor * list (option Out))
| EvBackward (t : Tensor)
| EvStep
| EvAuxLosses (aux : list (string * Num))
| EvRefresh
| EvVisuals (v : Visuals)
| EvDisplay (v : Visuals).

Record State : Type := { world : World; trace : list Event }.

(** Computations that read and change the state and may raise. *)
Definition Exec (T : Type) : Type := State -> (exn + T) * State.

Definition ret {T} (x : T) : Exec T := fun s => (inr x, s).
Definition raise {T} (e : exn) : Exec T := fun s => (inl e, s).
Definition bind {T U} (c : Exec T) (k : T -> Exec U) : Exec U :=
  fun s => match c s with
           | (inl e, s') => (inl e, s')
           | (inr x, s') => k x s'
           end.
Definition lift {T} (r : exn + T) : Exec T :=
  match r with inl e => raise e | inr x => ret x end.

(** One external call: change the world, log the event. *)
Definition call {T} (f : World -> T * World) (ev : T -> Event) : Exec T :=
  fun s => let (x, w) := f (world s) in
           (inr x, {| world := w; trace := trace s ++ [ev x] |}).
Definition call_ (f : World -> World) (ev : Event) : Exec unit :=
  call (fun w => (tt, f w)) (fun _ => ev).
End Data.

Declare Scope exec_scope.
Delimit Scope exec_scope with exec.
Notation "'let*' x ':=' c 'in' k" := (bind c (fun x => k))
  (at level 10, x name, c at level 100, k at level 200) : exec_scope.
Notation "'let*' ' p ':=' c 'in' k" :=
  (bind c (fun x => match x with p => k end))
  (at level 10, p pattern, c at level 100, k at level 200) : exec_scope.
Notation "c ';;' k" := (bind c (fun _ => k))
  (at level 100, k at level 200, right associativity) : exec_scope.
Open Scope exec_scope.

Section Loops.
Context `{Host}.

(** [for x in xs: acc = body(x, acc)] *)
Fixpoint for_each {T B} (xs : list T) (acc : B) (body : T -> B -> Exec B)
  : Exec B :=
  match xs with
  | [] => ret acc
  | x :: xs' => let* acc' := body x acc in for_each xs' acc' body
  end.
End Loops.

(** ** class SimCLR(Base) *)

Section SimCLR.
Context `{Host}.

Definition call_model (x : list View) : Exec (list Feat) :=
  call (model_call x) (fun z => EvModel x z).

(** [get_output_pairs]: the model on [inputs[:, 0, :]], then on
    [inputs[:, 1, :]] ([.to(self.device)] moves data, it changes no
    value). *)
Definition get_output_pairs (inputs : list (View * View))
  : Exec (list Feat * list Feat) :=
  let* z_i := call_model (List.map fst inputs) in
  let* z_j := call_model (List.map snd inputs) in
  ret (z_i, z_j).

(** [if name not in values: values[name] = 0] *)
Definition init_entry (values : gmap string Num) (name : string)
  : gmap string Num :=
  match values !! name with
  | None => <[name := num_zero]> values
  | Some _ => values
  end.

(** [values[name] += x], the key present. *)
Definition add_entry (values : gmap string Num) (name : string) (x : Num)
  : gmap string Num :=
  match values !! name with
  | Some v => <[name := num_add v x]> values
  | None => values
  end.

(** [if name not in values: values[name] = 0] then
    [values[name] += x]. *)
Definition accumulate (values : gmap string Num) (name : string) (x : Num)
  : gmap string Num :=
  add_entry (init_entry values name) name x.

(** [x / nb_batch] for a float [x] and an int [nb_batch]: the division
    by zero raises. *)
Definition truediv (x : Num) (nb_batch : nat) : exn + Num :=
  match nb_batch with
  | O => inl (ZeroDivisionError "float division by zero")
  | S _ => inr (num_div x nb_batch)
  end.

Definition val_suffix : string := " on validation set".

(** [update_metrics(values, nb_batch, logits, target, validation)].
    The dict is updated in place: the outcome of the call comes with
    the dict as the call leaves it, also when it raises, which it does
    at the first metric when [nb_batch] is 0, the entry then created
    and nothing added to it. *)
Definition update_metrics (values : gmap string Num) (nb_batch : nat)
    (logits target : option Out) (validation : bool)
  : (exn + unit) * gmap string Num :=
  match logits, target with
  | Some lg, Some tg =>
      fold_left
        (fun (run : (exn + unit) * gmap string Num)
             (nm : string * (Out -> Out -> Num)) =>
           match run with
           | (inl e, values) => (inl e, values)
           | (inr _, values) =>
               let name := fst nm in
               let name := if validation then name +:+ val_suffix else name in
               let values := init_entry values name in
               match truediv (py_float (snd nm lg tg)) nb_batch with
               | inl e => (inl e, values)
               | inr x => (inr tt, add_entry values name x)
               end
           end)
        metrics (inr tt, values)
  | _, _ => (inr tt, values)
  end.

(** The dict a caller goes on with after a call that updated it in
    place: [values] is a local of [train] and of [test], gone with them
    when the call raises. *)
Definition updated (run : (exn + unit) * gmap string Num)
  : exn + gmap string Num :=
  match run with
  | (inl e, _) => inl e
  | (inr _, values) => inr values
  end.

Definition truthy (x : option Out) : bool :=
  match x with None => false | Some o => out_truthy o end.

(** The call [self.update_metrics(values, nb_batch, *args)], with
    [validation=True] as a keyword or without it: [args] fill
    [logits], [target], [validation] in this order. *)
Definition call_update_metrics (values : gmap string Num) (nb_batch : nat)
    (args : list (option Out)) (kw_validation : option bool)
  : exn + gmap string Num :=
  let validation := default false kw_validation in
  match args with
  | [] => updated (update_metrics values nb_batch None None validation)
  | [lg] => updated (update_metrics values nb_batch lg None validation)
  | [lg; tg] => updated (update_metrics values nb_batch lg tg validation)
  | [lg; tg; v] =>
      match kw_validation with
      | None => updated (update_metrics values nb_batch lg tg (truthy v))
      | Some _ =>
          inl (TypeError "update_metrics() got multiple values for argument 'validation'")
      end
  | _ => inl (TypeError "update_metrics() takes from 3 to 6 positional arguments")
  end.

(** [self.loss(z_i, z_j, labels)] if [labels is not None], else
    [self.loss(z_i, z_j)]. *)
Definition call_loss (z_i z_j : list Feat) (labels : option (list Label))
  : Exec (Tensor * list (option Out)) :=
  match labels with
  | Some l => call (loss_call z_i z_j (Some l)) (EvLoss z_i z_j (Some l))
  | None => call (loss_call z_i z_j None) (EvLoss z_i z_j None)
  end.

(** [self.loss.get_aux_losses() if hasattr(...) else dict()] *)
Definition call_aux_losses : Exec (list (string * Num)) :=
  match get_aux_losses with
  | Some f => call f EvAuxLosses
  | None => ret []
  end.

(** The [if iteration % 40 == 0] block of [train]. *)
Definition refresh_visuals (visualizer : option Visualizer) (iteration : nat)
  : Exec unit :=
  if Nat.eqb (iteration mod 40) 0 then
    match visualizer with
    | Some vz =>
        call_ (refresh_current_metrics vz) EvRefresh ;;
        match get_current_visuals with
        | Some f =>
            let* visuals := call f EvVisuals in
            call_ (display_images vz visuals) (EvDisplay visuals)
        | None => ret tt
        end
    | None => ret tt
    end
  else ret tt.

(** The body of the loop of [train], on the loop's variables
    [values], [iteration], [losses]; [nb_batch] is [len(loader)], at
    least 1 when the body runs. *)
Definition train_batch (nb_batch : nat) (visualizer : option Visualizer)
    (dataitem : DataItem) (acc : gmap string Num * nat * list Num)
  : Exec (gmap string Num * nat * list Num) :=
  let '(values, iteration, losses) := acc in
  call_ zero_grad EvZeroGrad ;;
  let* '(z_i, z_j) := get_output_pairs (inputs dataitem) in
  let* '(batch_loss, args) := call_loss z_i z_j (labels dataitem) in
  call_ (backward batch_loss) (EvBackward batch_loss) ;;
  call_ optimizer_step EvStep ;;
  let* aux_losses := call_aux_losses in
  let values :=
    fold_left
      (fun values (na : string * Num) =>
         accumulate values (fst na) (num_div (py_float (snd na)) nb_batch))
      aux_losses values in
  let losses := (losses ++ [tensor_float batch_loss])%list in
  refresh_visuals visualizer iteration ;;
  let iteration := (iteration + 1)%nat in
  let* values := lift (call_update_metrics values nb_batch args None) in
  ret (values, iteration, losses).

(** [train(loader, visualizer)]; the progress bar is left out, and
    [**kwargs] is taken to bind none of the parameters of
    [update_metrics]. *)
Definition train (loader : Loader) (visualizer : option Visualizer)
  : Exec (Num * gmap string Num) :=
  call_ model_train EvTrainMode ;;
  let nb_batch := len loader in
  let* '(values, iteration, losses) :=
    for_each (batches loader 0) (∅ : gmap string Num, 0%nat, @nil Num)
      (train_batch nb_batch visualizer) in
  ret (np_mean losses, values).

(** What [test] returns: [y, y_true, X, loss, values] and, with
    [with_visuals], [visuals] (a list while empty, else the
    concatenated array). *)
Inductive VisualsOut : Type :=
| VisList (l : list Visuals)
| VisArray (a : Visuals).

Record TestResult : Type := {
  res_y : list Out;
  res_y_true : list Out;
  res_X : list View;
  res_loss : Num;
  res_values : gmap string Num;
  res_visuals : option VisualsOut
}.

(** [self.model.get_current_visuals()] *)
Definition call_current_visuals : Exec Visuals :=
  match get_current_visuals with
  | Some f => call f EvVisuals
  | None => raise (AttributeError "object has no attribute 'get_current_visuals'")
  end.

(** The body of the loop of [test], on [loss], [values], [visuals];
    [nb_batch] is [len(loader)], at least 1 when the body runs. *)
Definition test_batch (nb_batch : nat) (with_visuals : bool)
    (dataitem : DataItem) (acc : Num * gmap string Num * list Visuals)
  : Exec (Num * gmap string Num * list Visuals) :=
  let '(loss, values, visuals) := acc in
  let* '(z_i, z_j) := get_output_pairs (inputs dataitem) in
  let* visuals :=
    (if with_visuals
     then let* v := call_current_visuals in ret (visuals ++ [v])%list
     else ret visuals) in
  let* '(batch_loss, args) := call_loss z_i z_j (labels dataitem) in
  let loss := num_add loss (num_div (tensor_float batch_loss) nb_batch) in
  let* values := lift (call_update_metrics values nb_batch args (Some true)) in
  let* aux_losses := call_aux_losses in
  let values :=
    fold_left
      (fun values (na : string * Num) =>
         accumulate values (fst na +:+ val_suffix) (num_div (snd na) nb_batch))
      aux_losses values in
  ret (loss, values, visuals).

(** [test(loader, with_visuals)] *)
Definition test (loader : Loader) (with_visuals : bool) : Exec TestResult :=
  call_ model_eval EvEvalMode ;;
  let nb_batch := len loader in
  let y : list Out := [] in
  let y_true : list Out := [] in
  let X : list View := [] in
  let* '(loss, values, visuals) :=
    for_each (batches loader 0)
      (num_zero, ∅ : gmap string Num, @nil Visuals)
      (test_batch nb_batch with_visuals) in
  let visuals :=
    if Nat.ltb 0 (length visuals) then VisArray (np_concatenate visuals)
    else VisList visuals in
  ret {| res_y := y; res_y_true := y_true; res_X := X;
         res_loss := loss; res_values := values;
         res_visuals := if with_visuals then Some visuals else None |}.

(** The body of the inner loop of [features_avg_test], on
    [current_y[0]], [current_y[1]], [current_y_true]. *)
Definition collect_batch (dataitem : DataItem)
    (acc : list Feat * list Feat * list Label)
  : Exec (list Feat * list Feat * list Label) :=
  let '(cy0, cy1, current_y_true) := acc in
  let current_y_true :=
    match labels dataitem with
    | Some l => (current_y_true ++ l)%list
    | None => current_y_true
    end in
  let* '(z_i, z_j) := get_output_pairs (inputs dataitem) in
  ret ((cy0 ++ z_i)%list, (cy1 ++ z_j)%list, current_y_true).

(** One traversal of the loader in [features_avg_test]. *)
Definition collect_pass (items : list DataItem)
  : Exec (list Feat * list Feat * list Label) :=
  for_each items (@nil Feat, @nil Feat, @nil Label) collect_batch.

(** [for _ in range(n)], the traversals numbered from [k]. *)
Fixpoint collect_passes (loader : Loader) (k n : nat)
    (y : list (list Feat)) (y_true : list (list Label))
  : Exec (list (list Feat) * list (list Label)) :=
  match n with
  | O => ret (y, y_true)
  | S n' =>
      let* '(cy0, cy1, current_y_true) := collect_pass (batches loader k) in
      collect_passes loader (S k) n'
        (y ++ [cy0; cy1])%list
        (y_true ++ [current_y_true; current_y_true])%list
  end.

Definition sampler_msg : string :=
  "The dataloader must use the sequential sampler (avoid random_sampler option)".
Definition order_msg : string :=
  "Wrong iteration order through the dataloader".

(** The sanity check
    [assert np.all(np.array(y_true)[0,:] == np.array(y_true))]. *)
Definition loader_order_check (y_true : list (list Label)) : exn + unit :=
  match np_array y_true with
  | inl e => inl e
  | inr a =>
      match index_row0 a with
      | inl e => inl e
      | inr row0 =>
          if np_all_eq label_eqb row0 a then inr tt
          else inl (AssertionError order_msg)
      end
  end.

(** [features_avg_test(loader, M)], [M] already an [int]; the
    progress bar and the print are left out. *)
Definition features_avg_test (loader : Loader) (M : Z)
  : Exec (ndarray Feat * ndarray Label) :=
  lift (even_sample_count_check M) ;;
  if negb (is_sequential (sampler loader))
  then raise (ValueError sampler_msg)
  else
    call_ model_eval EvEvalMode ;;
    let* '(y, y_true) := collect_passes loader 0 (Z.to_nat (M / 2)) [] [] in
    lift (loader_order_check y_true) ;;
    let* ya := lift (np_array y) in
    let* y := lift (swapaxes01 ya) in
    let* ta := lift (np_array y_true) in
    let* y_true := lift (swapaxes01 ta) in
    ret (y, y_true).
End SimCLR.

(** ** Dataset adapters: SimCLROpenBHB(OpenBHB), SimCLRSubOpenBHB(SubOpenBHB)

    The parent classes are not part of the file.  A parent is its
    [__getitem__], which draws a random augmentation (so it reads and
    advances the generator state) and may raise. *)

Class ParentDataset : Type := {
  Rng : Type;                       (* NumPy's global generator, and the OS entropy *)
  Sample : Type;                    (* one augmented array *)
  Target : Type;
  np_random_seed : Rng -> Rng;      (* np.random.seed() *)
  super_getitem : Z -> Rng -> (exn + (Sample * Target)) * Rng;
  same_shape : Sample -> Sample -> bool
}.

Module Dataset.
Section Adapter.
Context `{ParentDataset}.

(** [np.stack((x1, x2), axis=0)]: a new leading axis of size two. *)
Definition np_stack (x1 x2 : Sample) : exn + list Sample :=
  if same_shape x1 x2 then inr [x1; x2]
  else inl (ValueError "all input arrays must have the same shape").

(** The body shared by both adapters. *)
Definition getitem (idx : Z) (g : Rng) : (exn + (list Sample * Target)) * Rng :=
  let g := np_random_seed g in
  match super_getitem idx g with
  | (inl e, g) => (inl e, g)
  | (inr (x1, y1), g) =>
      match super_getitem idx g with
      | (inl e, g) => (inl e, g)
      | (inr (x2, y1), g) =>
          match np_stack x1 x2 with
          | inl e => (inl e, g)
          | inr x => (inr (x, y1), g)
          end
      end
  end.
End Adapter.
End Dataset.

(** [SimCLROpenBHB.__getitem__] and [SimCLRSubOpenBHB.__getitem__]: the
    same body over the two parents. *)
Definition SimCLROpenBHB_getitem (OpenBHB : ParentDataset) :=
  @Dataset.getitem OpenBHB.
Definition SimCLRSubOpenBHB_getitem (SubOpenBHB : ParentDataset) :=
  @Dataset.getitem SubOpenBHB.

Section AdapterContract.
Context `{ParentDataset}.

(** What [__getitem__] of an adapter does at [idx] from the generator
    state [g]: when the parent returns twice at [idx], first from the
    reseeded state and then from the state the first draw left, with
    views of one shape, the result is the two views stacked along a new
    leading axis of size two, with the label of the second draw; and
    it returns in no other way. *)
Definition pair_of_views
    (getitem : Z -> Rng -> (exn + (list Sample * Target)) * Rng)
    (idx : Z) (g : Rng) : Prop :=
  (forall x1 y1 g1 x2 y2 g2,
     super_getitem idx (np_random_seed g) = (inr (x1, y1), g1) ->
     super_getitem idx g1 = (inr (x2, y2), g2) ->
     same_shape x1 x2 = true ->
     getitem idx g = (inr ([x1; x2], y2), g2))
  /\ (forall x y g',
        getitem idx g = (inr (x, y), g') ->
        length x = 2%nat
        /\ exists x1 y1 g1 x2,
             super_getitem idx (np_random_seed g) = (inr (x1, y1), g1)
             /\ super_getitem idx g1 = (inr (x2, y), g')
             /\ x = [x1; x2]).

End AdapterContract.

(** ** A small concrete host, to run the code on *)

Module Toy.
(** Float labels: numbers, and NaN, which is equal to nothing. *)
Inductive label : Type := LNum (z : Z) | LNaN.

Definition label_eq (a b : label) : bool :=
  match a, b with
  | LNum x, LNum y => Z.eqb x y
  | _, _ => false
  end.

Definition zsum (l : list Z) : Z := fold_right Z.add 0 l.
Definition qsum (l : list Q) : Q := fold_right Qplus (0 # 1)%Q l.

Definition lift_aux (aux : option (list (string * Q)))
  : option (nat -> list (string * Q) * nat) :=
  match aux with
  | Some l => Some (fun w => (l, w))
  | None => None
  end.

Lemma lift_aux_nodup (aux : option (list (string * Q))) :
  (forall l, aux = Some l -> NoDup (List.map fst l)) ->
  forall f w, lift_aux aux = Some f -> NoDup (List.map fst (fst (f w))).
Proof.
  intros Hl f w. destruct aux as [l|]; simpl; intros Hf; [|discriminate].
  injection Hf as <-. simpl. apply Hl. reflexivity.
Qed.

(** The world counts the optimizer steps taken; the model adds that
    count to every view; the loss sums the features and returns the
    given extras; arithmetic is exact. *)
Definition host (extras : list (option Z)) (aux : option (list (string * Q)))
    (mets : list (string * (Z -> Z -> Q))) (visuals : bool)
    (Hm : NoDup (List.map fst mets))
    (Ha : forall l, aux = Some l -> NoDup (List.map fst l)) : Host :=
  {| World := nat; View := Z; Feat := Z; Label := label; Tensor := Q;
     Out := Z; Num := Q; Visuals := nat; Visualizer := unit;
     label_eqb := label_eq;
     model_train := fun w => w;
     model_eval := fun w => w;
     model_call := fun x w => (List.map (Z.add (Z.of_nat w)) x, w);
     get_current_visuals := if visuals then Some (fun w => (w, w)) else None;
     zero_grad := fun w => w;
     optimizer_step := S;
     loss_call := fun z_i z_j _ w =>
                    ((inject_Z (zsum z_i + zsum z_j), extras), w);
     backward := fun _ w => w;
     get_aux_losses := lift_aux aux;
     metrics := mets;
     refresh_current_metrics := fun _ w => w;
     display_images := fun _ _ w => w;
     num_zero := (0 # 1)%Q;
     num_add := fun a b => Qred (a + b);
     num_div := fun a n => Qred (a / inject_Z (Z.of_nat n));
     py_float := fun a => a;
     tensor_float := fun a => a;
     out_truthy := fun z => negb (Z.eqb z 0);
     np_mean := fun l => Qred (qsum l / inject_Z (Z.of_nat (length l)));
     np_concatenate := fun l => fold_right Nat.add 0%nat l;
     metrics_nodup := Hm;
     aux_losses_nodup := lift_aux_nodup aux Ha |}.

Lemma no_aux_nodup :
  forall l : list (string * Q), None = Some l -> NoDup (List.map fst l).
Proof. intros l Hl. discriminate Hl. Qed.

(** No metrics, no auxiliary losses, no extra outputs. *)
Definition plain : Host :=
  host [] None [] true (NoDup_nil_2 : NoDup (List.map fst [])) no_aux_nodup.

Lemma one_aux_nodup (name : string) (a : Q) :
  forall l : list (string * Q),
    Some [(name, a)] = Some l -> NoDup (List.map fst l).
Proof. intros l [= <-]. apply NoDup_singleton. Qed.

(** A metric "acc" (the sum of logits and target), an auxiliary loss
    "reg"; the loss returns logits 1 and target 2. *)
Definition scored : Host :=
  host [Some 1; Some 2] (Some [("reg", (1 # 2)%Q)])
       [("acc", fun lg tg => inject_Z (lg + tg))] true
       (NoDup_singleton "acc") (one_aux_nodup "reg" (1 # 2)%Q).

(** A metric and an auxiliary loss both named "acc". *)
Definition colliding : Host :=
  host [Some 1; Some 2] (Some [("acc", (2 # 1)%Q)])
       [("acc", fun _ _ => (1 # 1)%Q)] true
       (NoDup_singleton "acc") (one_aux_nodup "acc" (2 # 1)%Q).

(** A parent dataset of three samples: the view drawn depends on the
    generator state, which every draw advances; the label is the
    index. *)
Definition parent : ParentDataset :=
  {| Rng := nat; Sample := Z; Target := Z;
     np_random_seed := fun g => (g + 100)%nat;
     super_getitem := fun idx g =>
       if (0 <=? idx) && (idx <? 3)
       then (inr (idx * 1000 + Z.of_nat g, idx), S g)
       else (inl (IndexError "index out of range"), g);
     same_shape := fun _ _ => true |}.
End Toy.

(** ** Vocabulary of the statements *)

Section Vocabulary.
Context `{Host}.

(** The samples and the labels a traversal yields, batch after batch. *)
Definition pass_inputs (items : list DataItem) : list (View * View) :=
  concat (List.map inputs items).
Definition pass_labels (items : list DataItem) : list Label :=
  concat (List.map (fun d => default [] (labels d)) items).

(** Every batch carries one label per sample. *)
Definition fully_labelled (items : list DataItem) : Prop :=
  Forall (fun d => exists l, labels d = Some l /\ length l = length (inputs d))
         items.
(** No batch carries labels. *)
Definition unlabelled (items : list DataItem) : Prop :=
  Forall (fun d => labels d = None) items.

(** The contract of [get_output_pairs]'s docstring: the output has
    the structure of the input, one row per sample. *)
Definition row_preserving : Prop :=
  forall x w, length (fst (model_call x w)) = length x.

(** The two calls of the model on a batch, with their outputs. *)
Definition out_events (d : DataItem) (o : list Feat * list Feat)
  : list Event :=
  [EvModel (List.map fst (inputs d)) (fst o);
   EvModel (List.map snd (inputs d)) (snd o)].

(** The calls of one traversal, given the outputs batch by batch. *)
Definition pass_events (items : list DataItem)
    (outs : list (list Feat * list Feat)) : list Event :=
  concat (zip_with out_events items outs).

(** The two rows a traversal contributes to [y]: the [z_i] of all its
    samples, then the [z_j] of all its samples. *)
Definition pass_rows (outs : list (list Feat * list Feat))
  : list (list Feat) :=
  [concat (List.map fst outs); concat (List.map snd outs)].

(** What one batch produced: the two outputs of the model, the loss
    and its extra outputs, the auxiliary losses. *)
Record BatchStep : Type := {
  st_zi : list Feat;
  st_zj : list Feat;
  st_loss : Tensor;
  st_args : list (option Out);
  st_aux : list (string * Num)
}.

Definition is_visual (ev : Event) : Prop :=
  match ev with
  | EvRefresh | EvVisuals _ | EvDisplay _ => True
  | _ => False
  end.

(** The record of the call (or not) of [get_aux_losses]. *)
Definition aux_events (aux : list (string * Num)) : list Event :=
  match get_aux_losses with
  | Some _ => [EvAuxLosses aux]
  | None => []
  end.

Definition forward_events (b : DataItem) (st : BatchStep) : list Event :=
  [EvModel (List.map fst (inputs b)) (st_zi st);
   EvModel (List.map snd (inputs b)) (st_zj st)].

Definition loss_event (b : DataItem) (st : BatchStep) : Event :=
  EvLoss (st_zi st) (st_zj st) (labels b) (st_loss st, st_args st).

(** The cycle of [train] on batch [b] at iteration [it]:
    zero_grad, the model on both views, the loss, backward, the
    optimizer step, then the auxiliary losses and the visualizer. *)
Definition train_cycle (visualizer : option Visualizer) (it : nat)
    (b : DataItem) (st : BatchStep) (evs : list Event) : Prop :=
  exists vis : list Event,
    evs = ([EvZeroGrad] ++ forward_events b st ++
           [loss_event b st; EvBackward (st_loss st); EvStep] ++
           aux_events (st_aux st) ++ vis)%list
    /\ Forall is_visual vis
    /\ (visualizer = None \/ it mod 40 <> 0 -> vis = [])%nat
    /\ (get_aux_losses = None -> st_aux st = []).

(** The cycle of [test] on batch [b]. *)
Definition test_cycle (with_visuals : bool)
    (b : DataItem) (st : BatchStep) (evs : list Event) : Prop :=
  exists vis : list Event,
    evs = (forward_events b st ++ vis ++ [loss_event b st] ++
           aux_events (st_aux st))%list
    /\ Forall is_visual vis
    /\ (with_visuals = false -> vis = [])
    /\ (get_aux_losses = None -> st_aux st = []).

(** Cycles in sequence, one per batch, iterations counted from [it]. *)
Inductive cycles (cycle : nat -> DataItem -> BatchStep -> list Event -> Prop)
  : nat -> list DataItem -> list BatchStep -> list Event -> Prop :=
| cycles_nil it : cycles cycle it [] [] []
| cycles_cons it b bs st sts evs evs' :
    cycle it b st evs ->
    cycles cycle (S it) bs sts evs' ->
    cycles cycle it (b :: bs) (st :: sts) (evs ++ evs')%list.

(** [x1 + x2 + ... ] from [start], added in this order. *)
Definition num_sum (start : Num) (xs : list Num) : Num :=
  fold_left num_add xs start.

(** The entry a key has after the contributions [xs] were
    accumulated into an empty dict. *)
Definition accumulated (xs : list Num) : option Num :=
  match xs with
  | [] => None
  | _ => Some (num_sum num_zero xs)
  end.

(** The value of key [name] among the items of a dict. *)
Definition item (name : string) (items : list (string * Num)) : option Num :=
  snd <$> List.find (fun na => bool_decide (fst na = name)) items.

(** The loss returned [logits] and [target], both present. *)
Definition paired_outputs (st : BatchStep) : option (Out * Out) :=
  match st_args st with
  | [Some lg; Some tg] => Some (lg, tg)
  | _ => None
  end.
(** The rows of [y_true] after [n] traversals numbered from [k]:
    the labels of each traversal, twice. *)
Definition label_rows (loader : Loader) (k n : nat) : list (list Label) :=
  concat (List.map (fun j => [pass_labels (batches loader j);
                              pass_labels (batches loader j)])
                   (seq k n)).

(** The events of [n] traversals numbered from [k]. *)
Definition passes_events (loader : Loader) (k : nat)
    (outss : list (list (list Feat * list Feat))) : list Event :=
  concat (zip_with (fun j outs => pass_events (batches loader j) outs)
                   (seq k (length outss)) outss).

Definition rows_of (o : list Feat * list Feat) (d : DataItem) : Prop :=
  length (fst o) = length (inputs d) /\ length (snd o) = length (inputs d).

(** What follows the traversals: the sanity check, then both arrays. *)
Definition finish (y : list (list Feat)) (y_true : list (list Label))
  : exn + (ndarray Feat * ndarray Label) :=
  match loader_order_check y_true with
  | inl e => inl e
  | inr _ =>
      match np_array y with
      | inl e => inl e
      | inr ya =>
          match swapaxes01 ya with
          | inl e => inl e
          | inr y' =>
              match np_array y_true with
              | inl e => inl e
              | inr ta =>
                  match swapaxes01 ta with
                  | inl e => inl e
                  | inr t' => inr (y', t')
                  end
              end
          end
      end
  end.

(** The result of accumulating the auxiliary losses of a batch in
    [train], and in [test]. *)
Definition train_aux (nb_batch : nat) (values : gmap string Num)
    (aux : list (string * Num)) : gmap string Num :=
  fold_left
    (fun values (na : string * Num) =>
       accumulate values (fst na) (num_div (py_float (snd na)) nb_batch))
    aux values.
Definition test_aux (nb_batch : nat) (values : gmap string Num)
    (aux : list (string * Num)) : gmap string Num :=
  fold_left
    (fun values (na : string * Num) =>
       accumulate values (fst na +:+ val_suffix) (num_div (snd na) nb_batch))
    aux values.

(** [values] after a batch of [train], of [test]: the bookkeeping of
    the loop body, given what the batch produced. *)
Definition train_values (nb_batch : nat) (values : gmap string Num)
    (st : BatchStep) : exn + gmap string Num :=
  call_update_metrics (train_aux nb_batch values (st_aux st)) nb_batch
    (st_args st) None.
Definition test_values (nb_batch : nat) (values : gmap string Num)
    (st : BatchStep) : exn + gmap string Num :=
  match call_update_metrics values nb_batch (st_args st) (Some true) with
  | inl e => inl e
  | inr values => inr (test_aux nb_batch values (st_aux st))
  end.

(** [values] after the batches [steps], from [values]. *)
Fixpoint values_after
    (step : gmap string Num -> BatchStep -> exn + gmap string Num)
    (values : gmap string Num) (steps : list BatchStep)
  : exn + gmap string Num :=
  match steps with
  | [] => inr values
  | st :: steps' =>
      match step values st with
      | inl e => inl e
      | inr values' => values_after step values' steps'
      end
  end.

(** The float losses of the batches, in order. *)
Definition step_losses (steps : list BatchStep) : list Num :=
  List.map (fun st => tensor_float (st_loss st)) steps.

(** The loss of [test]: [loss += float(batch_loss) / nb_batch]. *)
Definition test_loss (nb_batch : nat) (loss : Num) (steps : list BatchStep)
  : Num :=
  fold_left (fun loss st => num_add loss
                              (num_div (tensor_float (st_loss st)) nb_batch))
            steps loss.

(** The step holds what the loss and [get_aux_losses] returned on
    some call. *)
Definition produced (st : BatchStep) : Prop :=
  (exists z_i z_j lbl w,
     fst (loss_call z_i z_j lbl w) = (st_loss st, st_args st))
  /\ (st_aux st = []
      \/ exists f w, get_aux_losses = Some f /\ fst (f w) = st_aux st).

(** The loss returns at most [n] extra outputs. *)
Definition loss_arity (n : nat) : Prop :=
  forall z_i z_j lbl w,
    (length (snd (fst (loss_call z_i z_j lbl w))) <= n)%nat.

(** The key under which a name is stored, at training and at validation. *)
Definition val_key (validation : bool) (name : string) : string :=
  if validation then name +:+ val_suffix else name.

(** The entry of key [k] in the items [l] of a dict, keys mapped by [key]. *)
Definition entry {X} (key : string -> string) (k : string)
    (l : list (string * X)) : option (string * X) :=
  List.find (fun nm => bool_decide (key (fst nm) = k)) l.


(** What each batch adds to the entry of a metric, of an auxiliary
    loss at training, of an auxiliary loss at validation. *)
Definition metric_terms (nb_batch : nat) (metric : Out -> Out -> Num)
    (steps : list BatchStep) : list Num :=
  omap (fun st =>
          (fun p : Out * Out =>
             num_div (py_float (metric (fst p) (snd p))) nb_batch)
            <$> paired_outputs st)
       steps.
Definition train_aux_terms (nb_batch : nat) (name : string)
    (steps : list BatchStep) : list Num :=
  omap (fun st => (fun a => num_div (py_float a) nb_batch)
                    <$> item name (st_aux st))
       steps.
Definition test_aux_terms (nb_batch : nat) (name : string)
    (steps : list BatchStep) : list Num :=
  omap (fun st => (fun a => num_div a nb_batch) <$> item name (st_aux st))
       steps.




(** On every call the loss returns [logits] and [target], both
    present; on every call it returns the loss only. *)
Definition loss_paired : Prop :=
  forall z_i z_j lbl w, exists lg tg,
    snd (fst (loss_call z_i z_j lbl w)) = [Some lg; Some tg].
Definition loss_bare : Prop :=
  forall z_i z_j lbl w, snd (fst (loss_call z_i z_j lbl w)) = [].

(** No auxiliary loss has the name of a metric. *)
Definition names_apart : Prop :=
  forall f w name,
    get_aux_losses = Some f -> In name (List.map fst (fst (f w))) ->
    ~ In name (List.map fst metrics).

(** The dict after a call of [update_metrics] with [logits] and
    [target] that returns, [nb_batch] not 0: every metric accumulated. *)
Definition metrics_added (values : gmap string Num) (nb_batch : nat)
    (lg tg : Out) (validation : bool) : gmap string Num :=
  fold_left
    (fun values (nm : string * (Out -> Out -> Num)) =>
       accumulate values (val_key validation (fst nm))
         (num_div (py_float (snd nm lg tg)) nb_batch))
    metrics values.

(** Event [ev] is a call made on the world [w]: the host's operation
    it names, on the arguments it records, returns the result it
    records and leaves the world [w'].  An [EvLoss] with labels [None]
    is the call [loss(z_i, z_j)], one with [Some l] the call
    [loss(z_i, z_j, l)]. *)
Definition performs (visualizer : option Visualizer) (w : World) (ev : Event)
    (w' : World) : Prop :=
  match ev with
  | EvTrainMode => w' = model_train w
  | EvEvalMode => w' = model_eval w
  | EvZeroGrad => w' = zero_grad w
  | EvModel x z => model_call x w = (z, w')
  | EvLoss z_i z_j lbl res => loss_call z_i z_j lbl w = (res, w')
  | EvBackward t => w' = backward t w
  | EvStep => w' = optimizer_step w
  | EvAuxLosses aux => exists f, get_aux_losses = Some f /\ f w = (aux, w')
  | EvRefresh =>
      exists vz, visualizer = Some vz /\ w' = refresh_current_metrics vz w
  | EvVisuals v => exists f, get_current_visuals = Some f /\ f w = (v, w')
  | EvDisplay v =>
      exists vz, visualizer = Some vz /\ w' = display_images vz v w
  end.

(** The events [evs] are the calls made from the world [w] to the
    world [w'], one after the other, each on the world the one before
    left: no call is missing, none is recorded with another argument
    or another result than it had. *)
Inductive history (visualizer : option Visualizer)
  : World -> list Event -> World -> Prop :=
| history_nil w : history visualizer w [] w
| history_cons w ev w1 evs w' :
    performs visualizer w ev w1 -> history visualizer w1 evs w' ->
    history visualizer w (ev :: evs) w'.

End Vocabulary.

(** ** Inputs the properties are run on *)

Module Fixtures.
Import Toy.

Definition state0 (H : Host) (w : @World H) : @State H :=
  @Build_State H w [].
Definition s0 : @State plain := state0 plain 0%nat.
Definition batch (inp : list (Z * Z)) (l : option (list label))
  : @DataItem plain := @Build_DataItem plain inp l.
Definition loader (s : Sampler) (bs : nat -> list (@DataItem plain))
  : @Loader plain := @Build_Loader plain s bs.

(** One sample, no labels. *)
Definition unlabelled_one : @Loader plain :=
  loader SequentialSampler (fun _ => [batch [(1, 2)] None]).
(** Three labelled samples in two batches. *)
Definition labelled_three : @Loader plain :=
  loader SequentialSampler
    (fun _ => [batch [(1, 2); (3, 4)] (Some [LNum 1; LNum 2]);
               batch [(5, 6)] (Some [LNum 7])]).
Definition shuffled_three : @Loader plain :=
  loader RandomSampler
    (fun _ => [batch [(1, 2); (3, 4)] (Some [LNum 1; LNum 2]);
               batch [(5, 6)] (Some [LNum 7])]).
(** The second traversal yields one label more than the first. *)
Definition growing : @Loader plain :=
  loader SequentialSampler
    (fun k => match k with
              | O => [batch [(1, 2)] (Some [LNum 1])]
              | _ => [batch [(1, 2); (3, 4)] (Some [LNum 1; LNum 2])]
              end).
(** The second traversal yields another label for the second sample. *)
Definition relabelled : @Loader plain :=
  loader SequentialSampler
    (fun k => match k with
              | O => [batch [(1, 2); (3, 4)] (Some [LNum 1; LNum 2])]
              | _ => [batch [(1, 2); (3, 4)] (Some [LNum 1; LNum 5])]
              end).
(** The same labels on every traversal, one of them NaN. *)
Definition nan_labelled : @Loader plain :=
  loader SequentialSampler (fun _ => [batch [(1, 2)] (Some [LNaN])]).

(** Loaders for the hosts with a metric: two batches, none, one. *)
Definition scored_two : @Loader scored :=
  @Build_Loader scored SequentialSampler
    (fun _ => [@Build_DataItem scored [(1, 2)] None;
               @Build_DataItem scored [(3, 4)] (Some [LNum 1])]).
Definition scored_none : @Loader scored :=
  @Build_Loader scored SequentialSampler (fun _ => []).
Definition colliding_one : @Loader colliding :=
  @Build_Loader colliding SequentialSampler
    (fun _ => [@Build_DataItem colliding [(1, 2)] None]).
End Fixtures.

(** * Properties *)

(** ** The even-sample-count check *)

Lemma int_eq_float_half (M : Z) :
  int_eq_float (M / 2) (Qdiv (inject_Z M) (inject_Z 2)) = Z.even M.
Proof.
  unfold int_eq_float.
  assert (Qeq (inject_Z (M / 2)) (Qdiv (inject_Z M) (inject_Z 2))
          <-> 2 * (M / 2) = M) as Hq.
  { unfold Qeq, Qdiv, Qmult, Qinv, inject_Z. simpl. lia. }
  destruct (Z.even M) eqn:E.
  - apply Qeq_bool_iff, Hq.
    apply Z.even_spec in E. destruct E as [k ->].
    rewrite (Z.mul_comm 2 k), Z.div_mul by lia. lia.
  - destruct (Qeq_bool _ _) eqn:E'; [|reflexivity].
    apply Qeq_bool_iff, Hq in E'.
    assert (Z.even M = true) as E2; [|congruence].
    apply Z.even_spec. exists (M / 2). lia.
Qed.

(** Below [2^53] in magnitude the check is the parity of [M]. *)
Lemma even_sample_count_check_exact (M : Z) :
  Z.abs M < 2 ^ 53 ->
  even_sample_count_check M =
    if Z.even M then inr tt
    else inl (AssertionError "Nb of feature vectors averaged should be odd").
Proof.
  intros HM. unfold even_sample_count_check, truediv_2, float_of_int.
  cbv zeta.
  destruct (Z.abs M <? 2 ^ 53) eqn:E; [|apply Z.ltb_ge in E; lia].
  rewrite int_eq_float_half. reflexivity.
Qed.

Lemma even_sample_count_check_even (M : Z) :
  Z.abs M < 2 ^ 53 -> Z.even M = true -> even_sample_count_check M = inr tt.
Proof.
  intros HM HE. rewrite even_sample_count_check_exact, HE by exact HM.
  reflexivity.
Qed.

(** ** NumPy arrays *)

Section NumPyFacts.
Context {A : Type}.

Lemma np_array_uniform (rows : list (list A)) (m : nat) :
  rows <> [] -> Forall (fun r => length r = m) rows ->
  np_array rows = inr (Array2 (length rows) m rows).
Proof.
  destruct rows as [|r rs]; [congruence|]. intros _ Hall.
  apply Forall_cons in Hall as [Hr Hrs]. unfold np_array.
  replace (forallb (fun r' => Nat.eqb (length r') (length r)) rs) with true.
  - rewrite Hr. reflexivity.
  - symmetry. apply forallb_forall. intros r' Hin.
    rewrite Forall_forall in Hrs. apply Nat.eqb_eq.
    rewrite Hr. apply Hrs. apply list_elem_of_In. exact Hin.
Qed.

Lemma np_array_ragged (r r' : list A) (rs : list (list A)) :
  In r' rs -> length r' <> length r -> exists msg,
  np_array (r :: rs) = inl (ValueError msg).
Proof.
  intros Hin Hne. unfold np_array.
  destruct (forallb _ rs) eqn:E; [|eauto].
  rewrite forallb_forall in E. apply E, Nat.eqb_eq in Hin. contradiction.
Qed.


(** A column of a rectangular array has one cell per row. *)
Lemma transpose_rows (n : nat) (cells : list (list A)) :
  Forall (fun r => length r = n) cells ->
  Forall (fun c => length c = length cells) (transpose n cells).
Proof.
  intros Hall. unfold transpose. apply Forall_forall. intros c Hc.
  apply list_elem_of_In, in_map_iff in Hc as (j & <- & Hj).
  apply in_seq in Hj. clear -Hall Hj.
  induction Hall as [|r rs Hr Hrs IH]; [reflexivity|].
  change (omap (fun r0 : list A => r0 !! j) (r :: rs))
    with (match r !! j with
          | Some a => a :: omap (fun r0 : list A => r0 !! j) rs
          | None => omap (fun r0 : list A => r0 !! j) rs
          end).
  destruct (r !! j) eqn:E.
  - simpl. f_equal. exact IH.
  - apply lookup_ge_None in E. lia.
Qed.

End NumPyFacts.

(** ** The feature-averaging evaluation *)

Section FeaturesAvgTest.
Context `{Host}.

Lemma get_output_pairs_run (x : list (View * View)) (s : State) :
  exists z_i z_j w',
    get_output_pairs x s
    = (inr (z_i, z_j),
       {| world := w';
          trace := (trace s ++ [EvModel (List.map fst x) z_i;
                                EvModel (List.map snd x) z_j])%list |})
    /\ (row_preserving -> length z_i = length x /\ length z_j = length x).
Proof.
  unfold get_output_pairs, call_model, call, bind, ret. simpl.
  destruct (model_call (List.map fst x) (world s)) as [z_i w1] eqn:E1.
  simpl. destruct (model_call (List.map snd x) w1) as [z_j w2] eqn:E2.
  exists z_i, z_j, w2. split.
  - rewrite <- app_assoc. reflexivity.
  - intros Hrow. split.
    + pose proof (Hrow (List.map fst x) (world s)) as Hl.
      rewrite E1, length_map in Hl. exact Hl.
    + pose proof (Hrow (List.map snd x) w1) as Hl.
      rewrite E2, length_map in Hl. exact Hl.
Qed.

Lemma for_each_cons {T B} (x : T) (xs : list T) (acc : B)
    (body : T -> B -> Exec B) (s : State) :
  for_each (x :: xs) acc body s =
  match body x acc s with
  | (inl e, s') => (inl e, s')
  | (inr acc', s') => for_each xs acc' body s'
  end.
Proof. reflexivity. Qed.

Lemma collect_batch_run (d : DataItem) (cy0 cy1 : list Feat)
    (cyt : list Label) (s : State) :
  exists o w',
    collect_batch d (cy0, cy1, cyt) s
    = (inr ((cy0 ++ fst o)%list, (cy1 ++ snd o)%list,
            (cyt ++ default [] (labels d))%list),
       {| world := w'; trace := (trace s ++ out_events d o)%list |})
    /\ (row_preserving -> rows_of o d).
Proof.
  destruct (get_output_pairs_run (inputs d) s)
    as (z_i & z_j & w' & Hrun & Hlen).
  exists (z_i, z_j), w'. split; [|exact Hlen].
  unfold collect_batch, bind. rewrite Hrun. unfold ret, out_events.
  destruct (labels d); simpl; rewrite ?app_nil_r; reflexivity.
Qed.

Lemma collect_batches_run (items : list DataItem) :
  forall cy0 cy1 cyt s, exists outs w',
    for_each items (cy0, cy1, cyt) collect_batch s
    = (inr ((cy0 ++ concat (List.map fst outs))%list,
            (cy1 ++ concat (List.map snd outs))%list,
            (cyt ++ pass_labels items)%list),
       {| world := w'; trace := (trace s ++ pass_events items outs)%list |})
    /\ Forall2 (fun _ _ => True) outs items
    /\ (row_preserving -> Forall2 rows_of outs items).
Proof.
  induction items as [|d items IH]; intros cy0 cy1 cyt s.
  - exists [], (world s). simpl. unfold ret, pass_labels, pass_events.
    simpl. rewrite !app_nil_r. destruct s. repeat split; constructor.
  - rewrite for_each_cons.
    destruct (collect_batch_run d cy0 cy1 cyt s) as (o & w1 & Hrun & Hlen).
    rewrite Hrun.
    destruct (IH (cy0 ++ fst o)%list (cy1 ++ snd o)%list
                 (cyt ++ default [] (labels d))%list
                 {| world := w1; trace := (trace s ++ out_events d o)%list |})
      as (outs & w' & Hrest & Hsame & Hlen').
    exists (o :: outs), w'. split; [|split].
    + rewrite Hrest. unfold pass_labels, pass_events. simpl.
      rewrite <- !app_assoc. reflexivity.
    + constructor; [exact I|exact Hsame].
    + intros Hrow. constructor; [exact (Hlen Hrow)|exact (Hlen' Hrow)].
Qed.

Lemma collect_pass_run (items : list DataItem) (s : State) :
  exists outs w',
    collect_pass items s
    = (inr (concat (List.map fst outs), concat (List.map snd outs),
            pass_labels items),
       {| world := w'; trace := (trace s ++ pass_events items outs)%list |})
    /\ Forall2 (fun _ _ => True) outs items
    /\ (row_preserving -> Forall2 rows_of outs items).
Proof. exact (collect_batches_run items [] [] [] s). Qed.

Lemma collect_passes_run (loader : Loader) (n : nat) :
  forall k y y_true s, exists outss w',
    collect_passes loader k n y y_true s
    = (inr ((y ++ concat (List.map pass_rows outss))%list,
            (y_true ++ label_rows loader k n)%list),
       {| world := w';
          trace := (trace s ++ passes_events loader k outss)%list |})
    /\ length outss = n
    /\ (forall j outs, outss !! j = Some outs ->
          Forall2 (fun _ _ => True) outs (batches loader (k + j))
          /\ (row_preserving -> Forall2 rows_of outs (batches loader (k + j)))).
Proof.
  induction n as [|n IH]; intros k y y_true s.
  - exists [], (world s). simpl. unfold ret, label_rows, passes_events.
    simpl. rewrite !app_nil_r. destruct s.
    split; [reflexivity|]. split; [reflexivity|].
    intros j outs Hj. rewrite lookup_nil in Hj. discriminate.
  - simpl. unfold bind.
    destruct (collect_pass_run (batches loader k) s)
      as (outs & w1 & Hrun & Hsame & Hlen).
    rewrite Hrun.
    destruct (IH (S k) (y ++ [concat (List.map fst outs);
                              concat (List.map snd outs)])%list
                 (y_true ++ [pass_labels (batches loader k);
                             pass_labels (batches loader k)])%list
                 {| world := w1;
                    trace := (trace s ++ pass_events (batches loader k) outs)%list |})
      as (outss & w' & Hrest & Hn & Hall).
    exists (outs :: outss), w'. split; [|split].
    + rewrite Hrest. unfold label_rows, passes_events, pass_rows. simpl.
      rewrite <- !app_assoc. reflexivity.
    + simpl. rewrite Hn. reflexivity.
    + intros [|j] outs' Hj; simpl in Hj.
      * injection Hj as <-. rewrite Nat.add_0_r. split; assumption.
      * replace (k + S j)%nat with (S k + j)%nat by lia.
        apply Hall. exact Hj.
Qed.

Lemma label_rows_length (loader : Loader) (k n : nat) :
  length (label_rows loader k n) = (2 * n)%nat.
Proof.
  unfold label_rows. revert k. induction n as [|n IH]; intros k; simpl.
  - reflexivity.
  - rewrite IH. lia.
Qed.

Lemma label_rows_elem (loader : Loader) (k n : nat) (r : list Label) :
  r ∈ label_rows loader k n <->
  exists j, (k <= j < k + n)%nat /\ r = pass_labels (batches loader j).
Proof.
  unfold label_rows. revert k. induction n as [|n IH]; intros k; simpl.
  - split; [intros Hin; inversion Hin|intros (j & Hj & _); lia].
  - rewrite !elem_of_cons, IH. split.
    + intros [->|[->|(j & Hj & ->)]].
      * exists k. split; [lia|reflexivity].
      * exists k. split; [lia|reflexivity].
      * exists j. split; [lia|reflexivity].
    + intros (j & Hj & ->). destruct (decide (j = k)) as [->|Hne].
      * left. reflexivity.
      * right. right. exists j. split; [lia|reflexivity].
Qed.

Lemma combine_lookup (r r' : list Label) (i : nat) (a b : Label) :
  r !! i = Some a -> r' !! i = Some b -> In (a, b) (combine r r').
Proof.
  revert r' i. induction r as [|x r IH]; intros [|y r'] [|i]; simpl;
    try discriminate.
  - intros [= ->] [= ->]. left. reflexivity.
  - intros Ha Hb. right. apply (IH r' i); assumption.
Qed.

Lemma row_eq_refl (r : list Label) :
  Forall (fun l => label_eqb l l = true) r ->
  forallb (fun p => label_eqb (fst p) (snd p)) (combine r r) = true.
Proof.
  induction 1 as [|l r Hl Hr IH]; simpl; [reflexivity|].
  rewrite Hl, IH. reflexivity.
Qed.

(** The sanity check passes on rows that are all the row [r], when
    the labels of [r] are equal to themselves. *)
Lemma loader_order_check_same (r : list Label) (rows : list (list Label)) :
  rows <> [] -> Forall (fun r' => r' = r) rows ->
  Forall (fun l => label_eqb l l = true) r ->
  loader_order_check rows = inr tt.
Proof.
  intros Hne Hall Hrefl. unfold loader_order_check.
  rewrite (np_array_uniform rows (length r)).
  - destruct rows as [|r0 rows']; [congruence|].
    simpl index_row0. cbv iota. unfold np_all_eq.
    match goal with
    | |- (if ?b then _ else _) = _ => assert (b = true) as ->; [|reflexivity]
    end.
    apply forallb_forall. intros r' Hin.
    rewrite Forall_forall in Hall.
    rewrite (Hall r0) by (left; reflexivity).
    rewrite (Hall r') by (apply list_elem_of_In; exact Hin).
    apply row_eq_refl. exact Hrefl.
  - exact Hne.
  - eapply Forall_impl; [exact Hall|]. simpl. intros r' ->. reflexivity.
Qed.

(** The sanity check fails on rows of one length when some row
    differs from the first at some position. *)
Lemma loader_order_check_differs (r0 r' : list Label)
    (rows : list (list Label)) (i : nat) (a b : Label) :
  Forall (fun r => length r = length r0) (r0 :: rows) ->
  In r' (r0 :: rows) ->
  r0 !! i = Some a -> r' !! i = Some b -> label_eqb a b = false ->
  loader_order_check (r0 :: rows) = inl (AssertionError order_msg).
Proof.
  intros Hall Hin Ha Hb Hab. unfold loader_order_check.
  rewrite (np_array_uniform (r0 :: rows) (length r0)) by (congruence || exact Hall).
  simpl index_row0. cbv iota. unfold np_all_eq.
  destruct (forallb _ (r0 :: rows)) eqn:E; [|reflexivity].
  rewrite forallb_forall in E. specialize (E r' Hin).
  rewrite forallb_forall in E.
  specialize (E (a, b) (combine_lookup r0 r' i a b Ha Hb)).
  simpl in E. congruence.
Qed.

Lemma features_avg_test_run (loader : Loader) (M : Z) (s : State) :
  even_sample_count_check M = inr tt ->
  is_sequential (sampler loader) = true ->
  exists outss w',
    features_avg_test loader M s
    = (finish (concat (List.map pass_rows outss))
              (label_rows loader 0 (Z.to_nat (M / 2))),
       {| world := w';
          trace := (trace s ++ EvEvalMode :: passes_events loader 0 outss)%list |})
    /\ length outss = Z.to_nat (M / 2)
    /\ (forall j outs, outss !! j = Some outs ->
          Forall2 (fun _ _ => True) outs (batches loader j)
          /\ (row_preserving -> Forall2 rows_of outs (batches loader j))).
Proof.
  intros Hcheck Hseq.
  unfold features_avg_test, bind at 1. rewrite Hcheck. simpl lift.
  unfold ret at 1. rewrite Hseq. simpl negb. cbv iota.
  unfold bind at 1, call_, call. simpl.
  set (s1 := {| world := model_eval (world s);
                trace := (trace s ++ [EvEvalMode])%list |}).
  destruct (collect_passes_run loader (Z.to_nat (M / 2)) 0 [] [] s1)
    as (outss & w' & Hrun & Hlen & Hall).
  exists outss, w'. split; [|split; [exact Hlen|exact Hall]].
  unfold bind at 1. rewrite Hrun. simpl app.
  unfold s1. simpl trace. rewrite <- app_assoc. simpl app.
  unfold bind, lift, finish, raise, ret.
  destruct (loader_order_check _) as [e|[]]; [reflexivity|].
  destruct (np_array (concat _)) as [e|ya]; [reflexivity|].
  destruct (swapaxes01 ya) as [e|y']; [reflexivity|].
  destruct (np_array (label_rows _ _ _)) as [e|ta]; [reflexivity|].
  destruct (swapaxes01 ta) as [e|t']; reflexivity.
Qed.

Lemma pass_rows_length (outss : list (list (list Feat * list Feat))) :
  length (concat (List.map pass_rows outss)) = (2 * length outss)%nat.
Proof.
  induction outss as [|outs outss IH]; simpl; [reflexivity|].
  rewrite IH. lia.
Qed.

Lemma rows_of_pass (outs : list (list Feat * list Feat))
    (items : list DataItem) :
  Forall2 rows_of outs items ->
  length (concat (List.map fst outs)) = length (pass_inputs items)
  /\ length (concat (List.map snd outs)) = length (pass_inputs items).
Proof.
  unfold pass_inputs.
  induction 1 as [|o d outs items [Hi Hj] _ [IHi IHj]]; simpl.
  - split; reflexivity.
  - rewrite !length_app. lia.
Qed.

Lemma pass_rows_uniform (loader : Loader) (n : nat)
    (outss : list (list (list Feat * list Feat))) :
  (forall j outs, outss !! j = Some outs ->
                  Forall2 rows_of outs (batches loader j)) ->
  (forall j, (j < length outss)%nat ->
             length (pass_inputs (batches loader j)) = n) ->
  Forall (fun r => length r = n) (concat (List.map pass_rows outss)).
Proof.
  intros Hrows Hn. apply Forall_concat, Forall_forall.
  intros rs Hrs. apply list_elem_of_In, in_map_iff in Hrs as (outs & <- & Hin).
  apply list_elem_of_In, list_elem_of_lookup in Hin as (j & Hj).
  destruct (rows_of_pass outs _ (Hrows j outs Hj)) as [L0 L1].
  pose proof (Hn j (lookup_lt_Some _ _ _ Hj)) as Hlen.
  unfold pass_rows. repeat constructor; congruence.
Qed.

Lemma fully_labelled_length (items : list DataItem) :
  fully_labelled items ->
  length (pass_labels items) = length (pass_inputs items).
Proof.
  unfold fully_labelled, pass_labels, pass_inputs.
  induction 1 as [|d items (l & Hl & Hlen) _ IH]; simpl; [reflexivity|].
  rewrite !length_app, Hl, IH. simpl. lia.
Qed.

Lemma unlabelled_nil (items : list DataItem) :
  unlabelled items -> pass_labels items = [].
Proof.
  unfold unlabelled, pass_labels.
  induction 1 as [|d items Hd _ IH]; simpl; [reflexivity|].
  rewrite Hd, IH. reflexivity.
Qed.

Lemma label_rows_same (loader : Loader) (n : nat) :
  (forall k, (k < n)%nat ->
     pass_labels (batches loader k) = pass_labels (batches loader 0)) ->
  Forall (fun r => r = pass_labels (batches loader 0)) (label_rows loader 0 n).
Proof.
  intros Hsame. apply Forall_forall. intros r Hr.
  apply label_rows_elem in Hr as (j & Hj & ->). apply Hsame. lia.
Qed.

Lemma label_rows_nonempty (loader : Loader) (k n : nat) :
  (0 < n)%nat ->
  exists rest, label_rows loader k n
               = pass_labels (batches loader k) :: rest.
Proof.
  destruct n as [|n]; [lia|]. intros _. unfold label_rows. simpl.
  eexists. reflexivity.
Qed.

(** Past the sanity check only NumPy can refuse. *)
Lemma finish_checked (y : list (list Feat)) (y_true : list (list Label))
    (e : exn) :
  loader_order_check y_true = inr tt -> finish y y_true = inl e ->
  is_AssertionError e = false.
Proof.
  intros Hcheck. unfold finish. rewrite Hcheck.
  unfold np_array, swapaxes01.
  destruct y as [|r rs]; [intros [= <-]; reflexivity|].
  destruct (forallb _ rs); [|intros [= <-]; reflexivity].
  destruct y_true as [|t ts]; [intros [= <-]; reflexivity|].
  destruct (forallb _ ts); [discriminate|intros [= <-]; reflexivity].
Qed.

Lemma finish_not_sampler_error (y : list (list Feat))
    (y_true : list (list Label)) :
  finish y y_true <> inl (ValueError sampler_msg).
Proof.
  unfold finish, loader_order_check, swapaxes01, index_row0, np_array.
  destruct y_true as [|t ts]; [discriminate|].
  destruct (forallb _ ts); [|discriminate].
  destruct (np_all_eq _ _ _); [|discriminate].
  destruct y as [|r rs]; [discriminate|].
  destruct (forallb _ rs); discriminate.
Qed.
End FeaturesAvgTest.

Section FeaturesAvgTestClaims.
Context `{Host}.

(** C1 (as amended).  For every even [M] with [2 <= M < 2^53] and
    every loader with a sequential sampler whose traversals each
    yield [n_samples] samples and the same labels (each equal to
    itself), with a model that returns one row per sample,
    [features_avg_test] returns a pair [(y, y_true)].  It calls the
    model on both views of every batch in [M//2] traversals; each
    traversal contributes the row of its [z_i] and the row of its
    [z_j]; [y] is these [M] rows with the first two axes swapped, of
    shape [(n_samples, M)].  [y_true] has shape [(L, M)], [L] the
    number of labels a traversal yields: [n_samples] when every
    batch carries one label per sample, [0] when no batch carries
    labels. *)
Theorem features_avg_test_shape (loader : Loader) (M : Z)
    (n_samples : nat) (s : State) :
  Z.even M = true -> 2 <= M < 2 ^ 53 ->
  is_sequential (sampler loader) = true ->
  row_preserving ->
  (forall k, (k < Z.to_nat (M / 2))%nat ->
     length (pass_inputs (batches loader k)) = n_samples) ->
  (forall k, (k < Z.to_nat (M / 2))%nat ->
     pass_labels (batches loader k) = pass_labels (batches loader 0)) ->
  Forall (fun l => label_eqb l l = true) (pass_labels (batches loader 0)) ->
  exists outss y y_true s',
    features_avg_test loader M s = (inr (y, y_true), s')
    /\ length outss = Z.to_nat (M / 2)
    /\ trace s' = (trace s ++ EvEvalMode :: passes_events loader 0 outss)%list
    /\ y = Array2 n_samples (Z.to_nat M)
             (transpose n_samples (concat (List.map pass_rows outss)))
    /\ shape y = [n_samples; Z.to_nat M]
    /\ shape y_true = [length (pass_labels (batches loader 0)); Z.to_nat M]
    /\ (fully_labelled (batches loader 0) ->
        shape y_true = [n_samples; Z.to_nat M])
    /\ (unlabelled (batches loader 0) -> shape y_true = [0%nat; Z.to_nat M]).
Proof.
  intros Heven HM Hseq Hrow Hn Hsame Hrefl.
  assert (Hcheck : even_sample_count_check M = inr tt)
    by (apply even_sample_count_check_even; [lia|exact Heven]).
  assert (Hhalf : (2 * Z.to_nat (M / 2))%nat = Z.to_nat M).
  { apply Z.even_spec in Heven as [k ->].
    rewrite (Z.mul_comm 2 k), Z.div_mul by lia. lia. }
  assert (Hpos : (0 < Z.to_nat (M / 2))%nat) by lia.
  destruct (features_avg_test_run loader M s Hcheck Hseq)
    as (outss & w' & Hrun & Hlen & Hall).
  set (rows := concat (List.map pass_rows outss)) in *.
  set (lrows := label_rows loader 0 (Z.to_nat (M / 2))) in *.
  assert (Hrows_len : length rows = Z.to_nat M)
    by (unfold rows; rewrite pass_rows_length, Hlen; exact Hhalf).
  assert (Hlrows_len : length lrows = Z.to_nat M)
    by (unfold lrows; rewrite label_rows_length; exact Hhalf).
  assert (Hrows : Forall (fun r => length r = n_samples) rows).
  { apply (pass_rows_uniform loader).
    - intros j outs Hj. apply (Hall j outs Hj). exact Hrow.
    - intros j Hj. apply Hn. lia. }
  assert (Hlrows : Forall (fun r => r = pass_labels (batches loader 0)) lrows)
    by (apply label_rows_same; exact Hsame).
  assert (Hrows_ne : rows <> [])
    by (intros E; rewrite E in Hrows_len; simpl in Hrows_len; lia).
  assert (Hlrows_ne : lrows <> [])
    by (intros E; rewrite E in Hlrows_len; simpl in Hlrows_len; lia).
  assert (Hfinish :
    finish rows lrows
    = inr (Array2 n_samples (Z.to_nat M) (transpose n_samples rows),
           Array2 (length (pass_labels (batches loader 0))) (Z.to_nat M)
             (transpose (length (pass_labels (batches loader 0))) lrows))).
  { unfold finish.
    rewrite (loader_order_check_same _ lrows Hlrows_ne Hlrows Hrefl).
    rewrite (np_array_uniform rows n_samples Hrows_ne Hrows).
    rewrite (np_array_uniform lrows
               (length (pass_labels (batches loader 0))) Hlrows_ne).
    - simpl. rewrite Hrows_len, Hlrows_len. reflexivity.
    - eapply Forall_impl; [exact Hlrows|]. simpl. intros r ->. reflexivity. }
  rewrite Hfinish in Hrun.
  eexists outss, _, _, _. split; [exact Hrun|].
  split; [exact Hlen|]. split; [reflexivity|]. split; [reflexivity|].
  split; [reflexivity|]. split; [reflexivity|]. split.
  - intros Hfull. simpl. rewrite (fully_labelled_length _ Hfull).
    rewrite (Hn 0%nat Hpos). reflexivity.
  - intros Hnone. simpl. rewrite (unlabelled_nil _ Hnone). reflexivity.
Qed.

(** C3 (as amended).  When the even-sample-count check passes,
    [features_avg_test] raises the [ValueError] of the sampler
    validation if and only if the loader's sampler is not a
    [SequentialSampler], and it raises it before anything else is
    done; with a sequential sampler that error is not raised. *)
Theorem features_avg_test_sampler_error (loader : Loader) (M : Z)
    (s : State) :
  even_sample_count_check M = inr tt ->
  (is_sequential (sampler loader) = false ->
   features_avg_test loader M s = (inl (ValueError sampler_msg), s))
  /\ ((exists s', features_avg_test loader M s
                  = (inl (ValueError sampler_msg), s'))
      <-> is_sequential (sampler loader) = false).
Proof.
  intros Hcheck.
  assert (Hns : is_sequential (sampler loader) = false ->
                features_avg_test loader M s
                = (inl (ValueError sampler_msg), s)).
  { intros Hseq. unfold features_avg_test, bind. rewrite Hcheck. simpl.
    rewrite Hseq. reflexivity. }
  split; [exact Hns|]. split.
  - intros (s' & Hrun).
    destruct (is_sequential (sampler loader)) eqn:Hseq; [|reflexivity].
    destruct (features_avg_test_run loader M s Hcheck Hseq)
      as (outss & w' & Hrun' & _).
    rewrite Hrun' in Hrun. injection Hrun as Hfin _.
    exfalso. exact (finish_not_sampler_error _ _ Hfin).
  - intros Hseq. exists s. exact (Hns Hseq).
Qed.

(** C4 (as amended).  The loader-order sanity check of
    [features_avg_test] (parity check passed, sequential sampler):
    when every traversal yields the same labels in the same order
    and each label is equal to itself, no [AssertionError] is
    raised; when the traversals yield label sequences of one length
    and some traversal has, at some position, a label that is not
    equal to the first traversal's, the [AssertionError] of the
    check is raised. *)
Theorem loader_order_sanity_check (loader : Loader) (M : Z) (s : State) :
  even_sample_count_check M = inr tt ->
  is_sequential (sampler loader) = true ->
  ((forall k, (k < Z.to_nat (M / 2))%nat ->
      pass_labels (batches loader k) = pass_labels (batches loader 0)) ->
   Forall (fun l => label_eqb l l = true) (pass_labels (batches loader 0)) ->
   forall e, fst (features_avg_test loader M s) = inl e ->
             is_AssertionError e = false)
  /\ ((forall k, (k < Z.to_nat (M / 2))%nat ->
         length (pass_labels (batches loader k))
         = length (pass_labels (batches loader 0))) ->
      (exists k i a b,
         (k < Z.to_nat (M / 2))%nat
         /\ pass_labels (batches loader 0) !! i = Some a
         /\ pass_labels (batches loader k) !! i = Some b
         /\ label_eqb a b = false) ->
      fst (features_avg_test loader M s) = inl (AssertionError order_msg)).
Proof.
  intros Hcheck Hseq.
  destruct (features_avg_test_run loader M s Hcheck Hseq)
    as (outss & w' & Hrun & Hlen & _).
  rewrite Hrun. simpl fst. split.
  - intros Hsame Hrefl e He.
    destruct (Nat.eq_dec (Z.to_nat (M / 2)) 0%nat) as [Hz|Hnz].
    + rewrite Hz in He. unfold finish, label_rows in He. simpl in He.
      injection He as <-. reflexivity.
    + apply (finish_checked _ _ e) in He; [exact He|].
      apply (loader_order_check_same (pass_labels (batches loader 0))).
      * destruct (label_rows_nonempty loader 0 (Z.to_nat (M / 2)))
          as (rest & ->); [lia|discriminate].
      * apply label_rows_same. exact Hsame.
      * exact Hrefl.
  - intros Hsame (k & i & a & b & Hk & Ha & Hb & Hab).
    destruct (label_rows_nonempty loader 0 (Z.to_nat (M / 2)))
      as (rest & Hrows); [lia|].
    assert (Hin : In (pass_labels (batches loader k))
                     (label_rows loader 0 (Z.to_nat (M / 2)))).
    { apply list_elem_of_In, label_rows_elem. exists k.
      split; [lia|reflexivity]. }
    assert (Hall : Forall (fun r => length r
                                    = length (pass_labels (batches loader 0)))
                          (label_rows loader 0 (Z.to_nat (M / 2)))).
    { apply Forall_forall. intros r Hr.
      apply label_rows_elem in Hr as (j & Hj & ->). apply Hsame. lia. }
    rewrite Hrows in Hin, Hall. unfold finish. rewrite Hrows.
    rewrite (loader_order_check_differs _ _ rest i a b Hall Hin Ha Hb Hab).
    reflexivity.
Qed.
End FeaturesAvgTestClaims.

(** ** The feature-averaging evaluation on concrete loaders *)

Section FeaturesAvgTestRuns.
Import Toy Fixtures.

Lemma plain_row_preserving : @row_preserving plain.
Proof. intros x w. simpl. apply length_map. Qed.

(** C2.  The check is passed by the odd number [2^53 + 1]: its float
    image is [2^53], half of which is [M//2]; the call goes on to the
    sampler validation.  The even number [2^54 + 2] is refused. *)
Theorem even_sample_count_check_above_2p53 :
  Z.odd 9007199254740993 = true
  /\ even_sample_count_check 9007199254740993 = inr tt
  /\ @features_avg_test plain shuffled_three 9007199254740993 s0
     = (inl (ValueError sampler_msg), s0)
  /\ Z.even 18014398509481986 = true
  /\ even_sample_count_check 18014398509481986
     = inl (AssertionError "Nb of feature vectors averaged should be odd").
Proof. repeat split; vm_compute; reflexivity. Qed.

(** C1 fails as stated: one unlabelled sample and [M = 2] give a
    [y_true] of shape (0, 2), not (1, 2). *)
Lemma features_avg_test_unlabelled_shape :
  is_sequential (sampler unlabelled_one) = true
  /\ length (pass_inputs (batches unlabelled_one 0)) = 1%nat
  /\ fst (@features_avg_test plain unlabelled_one 2 s0)
     = inr (Array2 1 2 [[1; 2]], Array2 0 2 [])
  /\ @shape (@Label plain) (Array2 0 2 []) <> [1%nat; 2%nat].
Proof. repeat split; try (vm_compute; reflexivity). discriminate. Qed.

Lemma features_avg_test_shape_witness :
  exists y y_true s',
    @features_avg_test plain labelled_three 4 s0 = (inr (y, y_true), s')
    /\ shape y = [3%nat; 4%nat] /\ shape y_true = [3%nat; 4%nat].
Proof.
  destruct (@features_avg_test_shape plain labelled_three 4 3 s0)
    as (outss & y & y_true & s' & Hrun & _ & _ & _ & Hy & _ & Hfull & _).
  - reflexivity.
  - lia.
  - reflexivity.
  - exact plain_row_preserving.
  - intros k _. reflexivity.
  - intros k _. reflexivity.
  - repeat constructor.
  - exists y, y_true, s'. split; [exact Hrun|]. split; [exact Hy|].
    apply Hfull. repeat constructor; eexists; split; reflexivity.
Defined.

(** C3 fails as stated: with a sampler that is not sequential and an
    odd [M], the error is the [AssertionError] of the parity check. *)
Lemma features_avg_test_odd_shuffled :
  is_sequential (sampler shuffled_three) = false
  /\ @features_avg_test plain shuffled_three 3 s0
     = (inl (AssertionError "Nb of feature vectors averaged should be odd"),
        s0).
Proof. split; vm_compute; reflexivity. Qed.

Lemma features_avg_test_sampler_error_witness :
  @features_avg_test plain shuffled_three 2 s0
  = (inl (ValueError sampler_msg), s0).
Proof.
  apply (proj1 (@features_avg_test_sampler_error plain shuffled_three 2 s0
                  eq_refl)).
  reflexivity.
Defined.

(** C4 fails as stated.  A second traversal that yields one label
    more is refused by [np.array], with a [ValueError]; and labels
    that are the same on every traversal, one of them NaN, fail the
    assertion. *)
Lemma loader_order_check_misses :
  (is_sequential (sampler growing) = true
   /\ pass_labels (batches growing 1) <> pass_labels (batches growing 0)
   /\ fst (@features_avg_test plain growing 4 s0)
      = inl (ValueError "setting an array element with a sequence. The requested array has an inhomogeneous shape"))
  /\ (is_sequential (sampler nan_labelled) = true
      /\ (forall k, pass_labels (batches nan_labelled k)
                    = pass_labels (batches nan_labelled 0))
      /\ fst (@features_avg_test plain nan_labelled 2 s0)
         = inl (AssertionError order_msg)).
Proof.
  split; repeat split; try (vm_compute; reflexivity).
  vm_compute. discriminate.
Qed.

Lemma loader_order_sanity_check_witness :
  (forall e, fst (@features_avg_test plain labelled_three 4 s0) = inl e ->
             is_AssertionError e = false)
  /\ fst (@features_avg_test plain relabelled 4 s0)
     = inl (AssertionError order_msg).
Proof.
  split.
  - apply (proj1 (@loader_order_sanity_check plain labelled_three 4 s0
                    eq_refl eq_refl)).
    + intros k _. reflexivity.
    + repeat constructor.
  - apply (proj2 (@loader_order_sanity_check plain relabelled 4 s0
                    eq_refl eq_refl)).
    + intros [|k] _; reflexivity.
    + exists 1%nat, 1%nat, (LNum 2), (LNum 5).
      split; [vm_compute; constructor|repeat split; reflexivity].
Defined.
End FeaturesAvgTestRuns.

(** ** The loops of [train] and [test] *)

Section UpdateMetrics.
Context `{Host}.

Lemma update_metrics_absent (values : gmap string Num) (nb : nat)
    (logits target : option Out) (validation : bool) :
  logits = None \/ target = None ->
  update_metrics values nb logits target validation = (inr tt, values).
Proof.
  intros [-> | ->]; [reflexivity|destruct logits; reflexivity].
Qed.

(** With batches to divide by, the loop over the metrics runs to its
    end. *)
Lemma update_metrics_positive (values : gmap string Num) (nb : nat)
    (lg tg : Out) (validation : bool) :
  nb <> 0%nat ->
  update_metrics values nb (Some lg) (Some tg) validation
  = (inr tt, metrics_added values nb lg tg validation).
Proof.
  intros Hnb. destruct nb as [|n]; [contradiction|].
  unfold update_metrics, metrics_added. generalize metrics as l.
  intros l. revert values.
  induction l as [|nm l IH]; intros values; [reflexivity|].
  cbn [fold_left truediv]. apply IH.
Qed.

(** With [nb_batch] 0 it is left at the first metric, on the division. *)
Lemma update_metrics_zero (values : gmap string Num) (lg tg : Out)
    (validation : bool) :
  update_metrics values 0 (Some lg) (Some tg) validation
  = match metrics with
    | [] => (inr tt, values)
    | nm :: _ =>
        (inl (ZeroDivisionError "float division by zero"),
         init_entry values (val_key validation (fst nm)))
    end.
Proof.
  unfold update_metrics. generalize metrics as l.
  intros [|nm l]; [reflexivity|].
  cbn [fold_left truediv].
  induction l as [|nm' l IH]; [reflexivity|exact IH].
Qed.

Lemma update_metrics_returns (values : gmap string Num) (nb : nat)
    (logits target : option Out) (validation : bool) :
  nb <> 0%nat ->
  exists values',
    update_metrics values nb logits target validation = (inr tt, values').
Proof.
  intros Hnb. destruct logits as [lg|], target as [tg|];
    try (eexists; reflexivity).
  rewrite update_metrics_positive by exact Hnb. eexists. reflexivity.
Qed.

(** When the call returns, the dict is the one with every metric
    accumulated, or there is no metric. *)
Lemma update_metrics_returned (values values' : gmap string Num) (nb : nat)
    (lg tg : Out) (validation : bool) :
  updated (update_metrics values nb (Some lg) (Some tg) validation)
  = inr values' ->
  values' = metrics_added values nb lg tg validation.
Proof.
  destruct nb as [|n].
  - rewrite update_metrics_zero. unfold metrics_added.
    destruct metrics as [|nm l]; simpl; [|discriminate].
    intros [= <-]. reflexivity.
  - rewrite update_metrics_positive by discriminate. simpl.
    intros [= <-]. reflexivity.
Qed.
End UpdateMetrics.

Section TrainTest.
Context `{Host}.

Lemma bind_run {T U} (c : Exec T) (k : T -> Exec U) (s : State) :
  bind c k s = match c s with
               | (inl e, s') => (inl e, s')
               | (inr x, s') => k x s'
               end.
Proof. reflexivity. Qed.

Lemma call__run (f : World -> World) (ev : Event) (s : State) :
  call_ f ev s
  = (inr tt, {| world := f (world s); trace := (trace s ++ [ev])%list |}).
Proof. reflexivity. Qed.

Lemma call_run {T} (f : World -> T * World) (ev : T -> Event) (s : State) :
  call f ev s
  = (inr (fst (f (world s))),
     {| world := snd (f (world s));
        trace := (trace s ++ [ev (fst (f (world s)))])%list |}).
Proof. unfold call. destruct (f (world s)). reflexivity. Qed.

Lemma call_loss_run (z_i z_j : list Feat) (lbl : option (list Label))
    (s : State) :
  call_loss z_i z_j lbl s
  = (inr (fst (loss_call z_i z_j lbl (world s))),
     {| world := snd (loss_call z_i z_j lbl (world s));
        trace := (trace s ++
                  [EvLoss z_i z_j lbl
                     (fst (loss_call z_i z_j lbl (world s)))])%list |}).
Proof. unfold call_loss. destruct lbl; apply call_run. Qed.

Lemma call_aux_losses_run (s : State) :
  exists aux w',
    call_aux_losses s
    = (inr aux, {| world := w'; trace := (trace s ++ aux_events aux)%list |})
    /\ (get_aux_losses = None -> aux = [])
    /\ (aux = [] \/ exists f w, get_aux_losses = Some f /\ fst (f w) = aux).
Proof.
  unfold call_aux_losses, aux_events.
  destruct get_aux_losses as [f|] eqn:E.
  - rewrite call_run. exists (fst (f (world s))), (snd (f (world s))).
    split; [reflexivity|]. split; [discriminate|].
    right. exists f, (world s). split; reflexivity.
  - exists [], (world s). unfold ret. rewrite app_nil_r. destruct s.
    split; [reflexivity|]. split; [reflexivity|]. left. reflexivity.
Qed.

Lemma refresh_visuals_run (visualizer : option Visualizer) (it : nat)
    (s : State) :
  exists vis w',
    refresh_visuals visualizer it s
    = (inr tt, {| world := w'; trace := (trace s ++ vis)%list |})
    /\ Forall is_visual vis
    /\ (visualizer = None \/ it mod 40 <> 0 -> vis = [])%nat.
Proof.
  assert (Hidle : exists vis w',
             @ret _ unit tt s
             = (inr tt, {| world := w'; trace := (trace s ++ vis)%list |})
             /\ Forall is_visual vis
             /\ (visualizer = None \/ it mod 40 <> 0 -> vis = [])%nat).
  { exists [], (world s). unfold ret. rewrite app_nil_r. destruct s.
    split; [reflexivity|]. split; [constructor|reflexivity]. }
  unfold refresh_visuals.
  destruct (Nat.eqb (it mod 40) 0) eqn:E; [|exact Hidle].
  destruct visualizer as [vz|]; [|exact Hidle].
  apply Nat.eqb_eq in E.
  rewrite bind_run, call__run.
  destruct get_current_visuals as [f|].
  - rewrite bind_run, call_run, call__run. simpl.
    eexists [EvRefresh; EvVisuals _; EvDisplay _], _.
    rewrite <- !app_assoc. simpl. split; [reflexivity|].
    split; [repeat constructor|]. intros [Hv|Hv]; [discriminate|contradiction].
  - exists [EvRefresh]. eexists. unfold ret. split; [reflexivity|].
    split; [repeat constructor|]. intros [Hv|Hv]; [discriminate|contradiction].
Qed.

Lemma train_batch_run (nb : nat) (visualizer : option Visualizer)
    (d : DataItem) (values : gmap string Num) (it : nat) (losses : list Num)
    (s : State) :
  exists st w' evs,
    train_cycle visualizer it d st evs
    /\ produced st
    /\ train_batch nb visualizer d (values, it, losses) s
       = (match train_values nb values st with
          | inl e => inl e
          | inr values' =>
              inr (values', (it + 1)%nat,
                   (losses ++ [tensor_float (st_loss st)])%list)
          end,
          {| world := w'; trace := (trace s ++ evs)%list |}).
Proof.
  unfold train_batch.
  rewrite bind_run, call__run, bind_run.
  destruct (get_output_pairs_run (inputs d)
              {| world := zero_grad (world s);
                 trace := (trace s ++ [EvZeroGrad])%list |})
    as (z_i & z_j & w1 & Hfwd & _).
  rewrite Hfwd, bind_run, call_loss_run. cbn [world trace].
  destruct (loss_call z_i z_j (labels d) w1) as [[batch_loss args] w2] eqn:El.
  cbn [fst snd].
  rewrite bind_run, call__run, bind_run, call__run, bind_run.
  cbn [world trace].
  match goal with
  | |- context [call_aux_losses ?s1] =>
      destruct (call_aux_losses_run s1) as (aux & w3 & Haux & Hnone & Hprod)
  end.
  rewrite Haux, bind_run. cbn [world trace].
  match goal with
  | |- context [refresh_visuals _ _ ?s1] =>
      destruct (refresh_visuals_run visualizer it s1)
        as (vis & w4 & Hvis & Hall & Hidle)
  end.
  rewrite Hvis, bind_run. cbn [world trace].
  exists {| st_zi := z_i; st_zj := z_j; st_loss := batch_loss;
            st_args := args; st_aux := aux |}, w4.
  exists ([EvZeroGrad] ++
          [EvModel (List.map fst (inputs d)) z_i;
           EvModel (List.map snd (inputs d)) z_j] ++
          [EvLoss z_i z_j (labels d) (batch_loss, args);
           EvBackward batch_loss; EvStep] ++ aux_events aux ++ vis)%list.
  split; [|split].
  - exists vis.
    split; [reflexivity|split; [exact Hall|split; [exact Hidle|exact Hnone]]].
  - split; [|exact Hprod].
    exists z_i, z_j, (labels d), w1. rewrite El. reflexivity.
  - unfold train_values, train_aux, lift. cbn [st_aux st_args st_loss].
    rewrite <- !app_assoc. simpl app.
    destruct (call_update_metrics _ nb args None) as [e|values'];
      unfold raise, ret; reflexivity.
Qed.

(** The loop of [train]: every batch it starts has its whole cycle;
    it stops at the first batch whose bookkeeping raises. *)
Lemma train_loop_run (nb : nat) (visualizer : option Visualizer)
    (bs : list DataItem) :
  forall values it losses s, exists steps w' evs,
    cycles (train_cycle visualizer) it (take (length steps) bs) steps evs
    /\ Forall produced steps
    /\ for_each bs (values, it, losses) (train_batch nb visualizer) s
       = (match values_after (train_values nb) values steps with
          | inl e => inl e
          | inr values' =>
              inr (values', (it + length steps)%nat,
                   (losses ++ step_losses steps)%list)
          end,
          {| world := w'; trace := (trace s ++ evs)%list |})
    /\ (forall values', values_after (train_values nb) values steps
                        = inr values' -> length steps = length bs).
Proof.
  induction bs as [|d bs IH]; intros values it losses s.
  - exists [], (world s), []. simpl. unfold ret.
    rewrite !app_nil_r, Nat.add_0_r. destruct s.
    split; [constructor|]. split; [constructor|]. split; reflexivity.
  - rewrite for_each_cons.
    destruct (train_batch_run nb visualizer d values it losses s)
      as (st & w1 & evs1 & Hcycle & Hprod & Hrun).
    rewrite Hrun.
    destruct (train_values nb values st) as [e|values1] eqn:Ev.
    + exists [st], w1, evs1. simpl. rewrite Ev.
      split; [|split; [constructor; [exact Hprod|constructor]|split; [reflexivity|discriminate]]].
      rewrite <- (app_nil_r evs1). rewrite take_0.
      constructor; [exact Hcycle|constructor].
    + destruct (IH values1 (it + 1)%nat
                   (losses ++ [tensor_float (st_loss st)])%list
                   {| world := w1; trace := (trace s ++ evs1)%list |})
        as (steps & w' & evs & Hcycles & Hall & Hrest & Hlen).
      exists (st :: steps), w', (evs1 ++ evs)%list. simpl. rewrite Ev.
      split; [|split; [|split]].
      * constructor; [exact Hcycle|].
        replace (S it) with (it + 1)%nat by lia. exact Hcycles.
      * constructor; assumption.
      * rewrite Hrest. cbn [trace].
        destruct (values_after _ values1 steps) as [e|values'];
          rewrite <- ?app_assoc; [reflexivity|].
        unfold step_losses. simpl.
        replace (it + 1 + length steps)%nat with (it + S (length steps))%nat
          by lia.
        reflexivity.
      * intros values' Hv. rewrite (Hlen values' Hv). reflexivity.
Qed.

(** [train] as a whole. *)
Lemma train_run (loader : Loader) (visualizer : option Visualizer)
    (s : State) :
  exists steps w' evs,
    cycles (train_cycle visualizer) 0
           (take (length steps) (batches loader 0)) steps evs
    /\ Forall produced steps
    /\ train loader visualizer s
       = (match values_after (train_values (len loader)) ∅ steps with
          | inl e => inl e
          | inr values => inr (np_mean (step_losses steps), values)
          end,
          {| world := w'; trace := (trace s ++ EvTrainMode :: evs)%list |})
    /\ (forall values, values_after (train_values (len loader)) ∅ steps
                       = inr values ->
        length steps = len loader).
Proof.
  unfold train. rewrite bind_run, call__run, bind_run.
  destruct (train_loop_run (len loader) visualizer (batches loader 0)
              ∅ 0%nat []
              {| world := model_train (world s);
                 trace := (trace s ++ [EvTrainMode])%list |})
    as (steps & w' & evs & Hcycles & Hall & Hrun & Hlen).
  exists steps, w', evs. rewrite Hrun. cbn [trace].
  split; [exact Hcycles|]. split; [exact Hall|]. split; [|exact Hlen].
  rewrite <- app_assoc. simpl app.
  destruct (values_after _ ∅ steps) as [e|values]; reflexivity.
Qed.

Lemma call_update_metrics_arity (values : gmap string Num) (nb : nat)
    (args : list (option Out)) (kw : option bool) :
  nb <> 0%nat -> (length args <= 2)%nat ->
  exists values', call_update_metrics values nb args kw = inr values'.
Proof.
  intros Hnb.
  destruct args as [|lg [|tg [|v args]]]; cbn [length call_update_metrics];
    intros Hlen; [| | |lia];
    match goal with
    | |- context [update_metrics ?v ?n ?a ?b ?c] =>
        destruct (update_metrics_returns v n a b c Hnb) as (values' & ->)
    end;
    exists values'; reflexivity.
Qed.

Lemma train_values_arity (nb : nat) (steps : list BatchStep) :
  nb <> 0%nat -> loss_arity 2 -> Forall produced steps ->
  forall values, exists values',
    values_after (train_values nb) values steps = inr values'.
Proof.
  intros Hnb Harity. induction 1 as [|st steps Hst _ IH]; intros values.
  - exists values. reflexivity.
  - destruct Hst as [(z_i & z_j & lbl & w & Hl) _].
    destruct (call_update_metrics_arity
                (train_aux nb values (st_aux st)) nb (st_args st) None Hnb)
      as (values1 & Hv).
    { pose proof (Harity z_i z_j lbl w) as Hlen. rewrite Hl in Hlen.
      exact Hlen. }
    simpl. unfold train_values at 1. rewrite Hv. apply IH.
Qed.

Lemma test_batch_ok (nb : nat) (with_visuals : bool) (d : DataItem)
    (loss : Num) (values : gmap string Num) (visuals : list Visuals)
    (s s' : State) (acc' : Num * gmap string Num * list Visuals) :
  test_batch nb with_visuals d (loss, values, visuals) s = (inr acc', s') ->
  exists st evs vs values',
    test_cycle with_visuals d st evs
    /\ produced st
    /\ trace s' = (trace s ++ evs)%list
    /\ test_values nb values st = inr values'
    /\ acc' = (num_add loss (num_div (tensor_float (st_loss st)) nb),
               values', (visuals ++ vs)%list).
Proof.
  unfold test_batch. rewrite bind_run.
  destruct (get_output_pairs_run (inputs d) s) as (z_i & z_j & w1 & Hfwd & _).
  rewrite Hfwd, bind_run.
  assert (Hvis : (exists vs vis w2,
            (if with_visuals
             then let* v := call_current_visuals in
                  ret (visuals ++ [v])%list
             else ret visuals)
              {| world := w1;
                 trace := (trace s ++
                           [EvModel (List.map fst (inputs d)) z_i;
                            EvModel (List.map snd (inputs d)) z_j])%list |}
            = (inr (visuals ++ vs)%list,
               {| world := w2;
                  trace := ((trace s ++
                             [EvModel (List.map fst (inputs d)) z_i;
                              EvModel (List.map snd (inputs d)) z_j]) ++ vis)%list |})
            /\ Forall is_visual vis
            /\ (with_visuals = false -> vis = []))
          \/ exists e s1,
            (if with_visuals
             then let* v := call_current_visuals in
                  ret (visuals ++ [v])%list
             else ret visuals)
              {| world := w1;
                 trace := (trace s ++
                           [EvModel (List.map fst (inputs d)) z_i;
                            EvModel (List.map snd (inputs d)) z_j])%list |}
            = (inl e, s1)).
  { destruct with_visuals.
    - unfold call_current_visuals. destruct get_current_visuals as [f|].
      + left. rewrite bind_run, call_run. cbn [world trace]. unfold ret.
        eexists [_], [EvVisuals _], _. split; [reflexivity|].
        split; [repeat constructor|discriminate].
      + right. rewrite bind_run. unfold raise. eexists _, _. reflexivity.
    - left. exists [], [], w1. unfold ret. rewrite !app_nil_r.
      split; [reflexivity|]. split; [constructor|reflexivity]. }
  destruct Hvis as [(vs & vis & w2 & -> & Hall & Hidle)|(e & s1 & ->)];
    [|discriminate].
  rewrite bind_run, call_loss_run. cbn [world trace].
  destruct (loss_call z_i z_j (labels d) w2) as [[batch_loss args] w3] eqn:El.
  cbn [fst snd]. rewrite bind_run.
  destruct (call_update_metrics values nb args (Some true))
    as [e|values1] eqn:Ev; [discriminate|].
  unfold lift, ret at 1. rewrite bind_run.
  match goal with
  | |- context [call_aux_losses ?s1] =>
      destruct (call_aux_losses_run s1) as (aux & w4 & Haux & Hnone & Hprod)
  end.
  rewrite Haux. unfold ret. cbn [trace]. intros [= <- <-].
  exists {| st_zi := z_i; st_zj := z_j; st_loss := batch_loss;
            st_args := args; st_aux := aux |}.
  exists ([EvModel (List.map fst (inputs d)) z_i;
           EvModel (List.map snd (inputs d)) z_j] ++ vis ++
          [EvLoss z_i z_j (labels d) (batch_loss, args)] ++
          aux_events aux)%list, vs, (test_aux nb values1 aux).
  split; [|split; [|split; [|split]]].
  - exists vis.
    split; [reflexivity|split; [exact Hall|split; [exact Hidle|exact Hnone]]].
  - split; [|exact Hprod].
    exists z_i, z_j, (labels d), w2. rewrite El. reflexivity.
  - cbn [trace]. rewrite <- !app_assoc. reflexivity.
  - unfold test_values. cbn [st_args st_aux]. rewrite Ev. reflexivity.
  - reflexivity.
Qed.

Lemma test_batch_total (nb : nat) (with_visuals : bool) (d : DataItem)
    (acc : Num * gmap string Num * list Visuals) (s : State) :
  nb <> 0%nat ->
  loss_arity 2 -> (with_visuals = true -> get_current_visuals <> None) ->
  exists acc' s', test_batch nb with_visuals d acc s = (inr acc', s').
Proof.
  intros Hnb Harity Hvisuals. destruct acc as [[loss values] visuals].
  unfold test_batch. rewrite bind_run.
  destruct (get_output_pairs_run (inputs d) s) as (z_i & z_j & w1 & Hfwd & _).
  rewrite Hfwd, bind_run.
  assert (Hvis : exists visuals' s1,
            (if with_visuals
             then let* v := call_current_visuals in
                  ret (visuals ++ [v])%list
             else ret visuals)
              {| world := w1;
                 trace := (trace s ++
                           [EvModel (List.map fst (inputs d)) z_i;
                            EvModel (List.map snd (inputs d)) z_j])%list |}
            = (inr visuals', s1)).
  { destruct with_visuals.
    - unfold call_current_visuals.
      destruct get_current_visuals as [f|];
        [|exfalso; exact (Hvisuals eq_refl eq_refl)].
      rewrite bind_run, call_run. unfold ret. eexists _, _. reflexivity.
    - unfold ret. eexists _, _. reflexivity. }
  destruct Hvis as (visuals' & s1 & ->).
  rewrite bind_run, call_loss_run. cbn [world trace].
  pose proof (Harity z_i z_j (labels d) (world s1)) as Hlen.
  destruct (loss_call z_i z_j (labels d) (world s1))
    as [[batch_loss args] w3] eqn:El.
  cbn [fst snd] in *. rewrite bind_run.
  destruct (call_update_metrics_arity values nb args (Some true) Hnb Hlen)
    as (values1 & ->).
  unfold lift, ret at 1. rewrite bind_run.
  match goal with
  | |- context [call_aux_losses ?s2] =>
      destruct (call_aux_losses_run s2) as (aux & w4 & Haux & _)
  end.
  rewrite Haux. unfold ret. eexists _, _. reflexivity.
Qed.

Lemma test_loop_ok (nb : nat) (with_visuals : bool) (bs : list DataItem) :
  forall loss values visuals s acc' s',
    for_each bs (loss, values, visuals) (test_batch nb with_visuals) s
    = (inr acc', s') ->
    exists steps evs vs values',
      cycles (fun _ => test_cycle with_visuals) 0 bs steps evs
      /\ Forall produced steps
      /\ trace s' = (trace s ++ evs)%list
      /\ values_after (test_values nb) values steps = inr values'
      /\ acc' = (test_loss nb loss steps, values', (visuals ++ vs)%list).
Proof.
  induction bs as [|d bs IH]; intros loss values visuals s acc' s'.
  - simpl. unfold ret. intros [= <- <-].
    exists [], [], [], values. rewrite !app_nil_r.
    split; [constructor|]. split; [constructor|]. repeat split.
  - rewrite for_each_cons.
    destruct (test_batch nb with_visuals d (loss, values, visuals) s)
      as [[e|acc1] s1] eqn:E; [discriminate|].
    apply test_batch_ok in E
      as (st & evs1 & vs1 & values1 & Hcycle & Hprod & Htrace & Hv & ->).
    intros Hrest.
    apply IH in Hrest
      as (steps & evs & vs & values' & Hcycles & Hall & Htrace' & Hv' & ->).
    exists (st :: steps), (evs1 ++ evs)%list, (vs1 ++ vs)%list, values'.
    split; [|split; [|split; [|split]]].
    + constructor; [exact Hcycle|].
      clear -Hcycles. revert Hcycles. generalize 0%nat at 1 2.
      induction 1; constructor; auto.
    + constructor; assumption.
    + rewrite Htrace', Htrace, app_assoc. reflexivity.
    + simpl. rewrite Hv. exact Hv'.
    + rewrite app_assoc. reflexivity.
Qed.

Lemma test_loop_total (nb : nat) (with_visuals : bool) (bs : list DataItem) :
  nb <> 0%nat \/ bs = [] ->
  loss_arity 2 -> (with_visuals = true -> get_current_visuals <> None) ->
  forall acc s, exists acc' s',
    for_each bs acc (test_batch nb with_visuals) s = (inr acc', s').
Proof.
  intros [Hnb | ->] Harity Hvisuals; [|intros acc s; exists acc, s; reflexivity].
  induction bs as [|d bs IH]; intros acc s.
  - exists acc, s. reflexivity.
  - rewrite for_each_cons.
    destruct (test_batch_total nb with_visuals d acc s Hnb Harity Hvisuals)
      as (acc1 & s1 & ->).
    apply IH.
Qed.

(** [len(loader)] is 0 only for a loader without batches. *)
Lemma len_batches (loader : Loader) :
  len loader <> 0%nat \/ batches loader 0 = [].
Proof.
  unfold len. destruct (batches loader 0); [right; reflexivity|left; discriminate].
Qed.

(** [test] as a whole, when it returns. *)
Lemma test_ok (loader : Loader) (with_visuals : bool) (s s' : State)
    (r : TestResult) :
  test loader with_visuals s = (inr r, s') ->
  exists steps evs,
    cycles (fun _ => test_cycle with_visuals) 0 (batches loader 0) steps evs
    /\ Forall produced steps
    /\ trace s' = (trace s ++ EvEvalMode :: evs)%list
    /\ values_after (test_values (len loader)) ∅ steps = inr (res_values r)
    /\ res_loss r = test_loss (len loader) num_zero steps
    /\ res_y r = [] /\ res_y_true r = [] /\ res_X r = [].
Proof.
  unfold test. rewrite bind_run, call__run, bind_run.
  destruct (for_each _ _ _ _) as [[e|acc'] s1] eqn:E; [discriminate|].
  apply test_loop_ok in E
    as (steps & evs & vs & values' & Hcycles & Hall & Htrace & Hv & ->).
  unfold ret. intros [= <- <-]. exists steps, evs. cbn [trace] in Htrace.
  split; [exact Hcycles|]. split; [exact Hall|]. split.
  - rewrite Htrace, <- app_assoc. reflexivity.
  - simpl. repeat split. exact Hv.
Qed.

Lemma test_total (loader : Loader) (with_visuals : bool) (s : State) :
  loss_arity 2 -> (with_visuals = true -> get_current_visuals <> None) ->
  exists r s', test loader with_visuals s = (inr r, s').
Proof.
  intros Harity Hvisuals. unfold test. rewrite bind_run, call__run, bind_run.
  match goal with
  | |- context [for_each ?bs ?acc ?body ?s1] =>
      destruct (test_loop_total (len loader) with_visuals bs
                  (len_batches loader) Harity Hvisuals
                  acc s1) as ([[loss values] visuals] & s' & ->)
  end.
  unfold ret. eexists _, _. reflexivity.
Qed.
End TrainTest.

(** ** The log is the history of the world *)

Section History.
Context `{Host}.

Lemma history_app (vz : option Visualizer) (w w1 w' : World)
    (evs evs' : list Event) :
  history vz w evs w1 -> history vz w1 evs' w' ->
  history vz w (evs ++ evs')%list w'.
Proof.
  induction 1 as [w|w ev w2 evs w1 Hev _ IH]; intros Hrest; [exact Hrest|].
  simpl. econstructor; [exact Hev|]. apply IH. exact Hrest.
Qed.

(** [c] records every call it makes, as it makes it, and changes the
    world by these calls only. *)
Definition faithful {T} (vz : option Visualizer) (c : Exec T) : Prop :=
  forall s, exists evs,
    trace (snd (c s)) = (trace s ++ evs)%list
    /\ history vz (world s) evs (world (snd (c s))).

Lemma faithful_ret {T} (vz : option Visualizer) (x : T) : faithful vz (ret x).
Proof.
  intros s. exists []. simpl. rewrite app_nil_r. split; [reflexivity|constructor].
Qed.

Lemma faithful_raise {T} (vz : option Visualizer) (e : exn) :
  faithful vz (@raise _ T e).
Proof.
  intros s. exists []. simpl. rewrite app_nil_r. split; [reflexivity|constructor].
Qed.

Lemma faithful_lift {T} (vz : option Visualizer) (r : exn + T) :
  faithful vz (lift r).
Proof. destruct r; [apply faithful_raise|apply faithful_ret]. Qed.

Lemma faithful_bind {T U} (vz : option Visualizer) (c : Exec T)
    (k : T -> Exec U) :
  faithful vz c -> (forall x, faithful vz (k x)) -> faithful vz (bind c k).
Proof.
  intros Hc Hk s. rewrite bind_run.
  destruct (Hc s) as (evs & Htrace & Hhist).
  destruct (c s) as [[e|x] s1]; simpl in Htrace, Hhist.
  - exists evs. split; [exact Htrace|exact Hhist].
  - destruct (Hk x s1) as (evs' & Htrace' & Hhist').
    exists (evs ++ evs')%list. rewrite Htrace', Htrace, app_assoc.
    split; [reflexivity|]. eapply history_app; eassumption.
Qed.

Lemma faithful_call {T} (vz : option Visualizer) (f : World -> T * World)
    (ev : T -> Event) :
  (forall w, performs vz w (ev (fst (f w))) (snd (f w))) ->
  faithful vz (call f ev).
Proof.
  intros Hev s. rewrite call_run. eexists [_]. split; [reflexivity|].
  econstructor; [apply Hev|constructor].
Qed.

Lemma faithful_call_ (vz : option Visualizer) (f : World -> World)
    (ev : Event) :
  (forall w, performs vz w ev (f w)) -> faithful vz (call_ f ev).
Proof. intros Hev. unfold call_. apply faithful_call. exact Hev. Qed.

Lemma faithful_for_each {T B} (vz : option Visualizer) (xs : list T)
    (body : T -> B -> Exec B) :
  (forall x acc, faithful vz (body x acc)) ->
  forall acc, faithful vz (for_each xs acc body).
Proof.
  intros Hbody. induction xs as [|x xs IH]; intros acc.
  - apply faithful_ret.
  - simpl. apply faithful_bind; [apply Hbody|exact IH].
Qed.

Lemma faithful_get_output_pairs (vz : option Visualizer)
    (x : list (View * View)) :
  faithful vz (get_output_pairs x).
Proof.
  unfold get_output_pairs, call_model.
  apply faithful_bind;
    [apply faithful_call; intros w; apply surjective_pairing|].
  intros z_i.
  apply faithful_bind;
    [apply faithful_call; intros w; apply surjective_pairing|].
  intros z_j. apply faithful_ret.
Qed.

Lemma faithful_call_loss (vz : option Visualizer) (z_i z_j : list Feat)
    (lbl : option (list Label)) :
  faithful vz (call_loss z_i z_j lbl).
Proof.
  unfold call_loss.
  destruct lbl; apply faithful_call; intros w; apply surjective_pairing.
Qed.

Lemma faithful_call_aux_losses (vz : option Visualizer) :
  faithful vz call_aux_losses.
Proof.
  unfold call_aux_losses. destruct get_aux_losses as [f|] eqn:E;
    [|apply faithful_ret].
  apply faithful_call. intros w. exists f.
  split; [exact E|apply surjective_pairing].
Qed.


Lemma faithful_refresh_visuals (visualizer : option Visualizer) (it : nat) :
  faithful visualizer (refresh_visuals visualizer it).
Proof.
  unfold refresh_visuals.
  destruct (Nat.eqb (it mod 40) 0); [|apply faithful_ret].
  destruct visualizer as [vz|]; [|apply faithful_ret].
  apply faithful_bind.
  { apply faithful_call_. intros w. exists vz. split; reflexivity. }
  intros _. destruct get_current_visuals as [f|] eqn:E; [|apply faithful_ret].
  apply faithful_bind.
  { apply faithful_call. intros w. exists f.
    split; [exact E|apply surjective_pairing]. }
  intros visuals. apply faithful_call_. intros w. exists vz.
  split; reflexivity.
Qed.

Lemma faithful_train_batch (nb : nat) (visualizer : option Visualizer)
    (d : DataItem) (acc : gmap string Num * nat * list Num) :
  faithful visualizer (train_batch nb visualizer d acc).
Proof.
  destruct acc as [[values it] losses]. unfold train_batch.
  apply faithful_bind; [apply faithful_call_; reflexivity|]. intros _.
  apply faithful_bind; [apply faithful_get_output_pairs|]. intros [z_i z_j].
  apply faithful_bind; [apply faithful_call_loss|]. intros [batch_loss args].
  apply faithful_bind; [apply faithful_call_; reflexivity|]. intros _.
  apply faithful_bind; [apply faithful_call_; reflexivity|]. intros _.
  apply faithful_bind; [apply faithful_call_aux_losses|]. intros aux.
  apply faithful_bind; [apply faithful_refresh_visuals|]. intros _.
  apply faithful_bind; [apply faithful_lift|]. intros values'.
  apply faithful_ret.
Qed.


(** Whether they return or raise, [train] and [test] leave a log
    that is the history of the world. *)
Lemma faithful_train (loader : Loader) (visualizer : option Visualizer) :
  faithful visualizer (train loader visualizer).
Proof.
  unfold train.
  apply faithful_bind; [apply faithful_call_; reflexivity|]. intros _.
  apply faithful_bind.
  { apply faithful_for_each. intros d acc. apply faithful_train_batch. }
  intros [[values it] losses]. apply faithful_ret.
Qed.


(** The history of a run whose events are known. *)
Lemma faithful_history {T} (vz : option Visualizer) (c : Exec T)
    (s s' : State) (r : exn + T) (evs : list Event) :
  faithful vz c -> c s = (r, s') -> trace s' = (trace s ++ evs)%list ->
  history vz (world s) evs (world s').
Proof.
  intros Hc Hrun Htrace. destruct (Hc s) as (evs' & Htrace' & Hhist).
  rewrite Hrun in Htrace', Hhist. simpl in Htrace', Hhist.
  rewrite Htrace in Htrace'. apply app_inv_head in Htrace'. subst evs'.
  exact Hhist.
Qed.
End History.

(** ** The bookkeeping of [values] *)

Lemma string_length_app (a b : string) :
  String.length (a +:+ b) = (String.length a + String.length b)%nat.
Proof. induction a as [|c a IH]; simpl; [reflexivity|]. rewrite IH. reflexivity. Qed.

Lemma suffix_inj (sfx a b : string) : a +:+ sfx = b +:+ sfx -> a = b.
Proof.
  revert b. induction a as [|c a IH]; intros [|c' b] Heq.
  - reflexivity.
  - apply (f_equal String.length) in Heq.
    rewrite !string_length_app in Heq. simpl in Heq. lia.
  - apply (f_equal String.length) in Heq.
    rewrite !string_length_app in Heq. simpl in Heq. lia.
  - change (String c (a +:+ sfx) = String c' (b +:+ sfx)) in Heq.
    injection Heq as -> Heq. f_equal. apply IH. exact Heq.
Qed.

Section Bookkeeping.
Context `{Host}.

Lemma accumulate_lookup (values : gmap string Num) (name k : string) (x : Num) :
  accumulate values name x !! k
  = if decide (k = name)
    then Some (num_add (default num_zero (values !! name)) x)
    else values !! k.
Proof.
  unfold accumulate, add_entry, init_entry.
  destruct (values !! name) as [v|] eqn:E.
  - rewrite E. simpl. destruct (decide (k = name)) as [->|Hne].
    + apply lookup_insert_eq.
    + apply lookup_insert_ne. congruence.
  - rewrite lookup_insert_eq. simpl. destruct (decide (k = name)) as [->|Hne].
    + apply lookup_insert_eq.
    + rewrite !lookup_insert_ne by congruence. reflexivity.
Qed.

Lemma entry_none {X} (key : string -> string) (k : string)
    (l : list (string * X)) :
  (forall n, In n (List.map fst l) -> key n <> k) -> entry key k l = None.
Proof.
  induction l as [|nm l IH]; intros Hno; [reflexivity|].
  unfold entry. simpl. rewrite bool_decide_eq_false_2.
  - apply IH. intros n Hn. apply Hno. right. exact Hn.
  - apply Hno. left. reflexivity.
Qed.

Lemma entry_in {X} (key : string -> string) (n : string) (x : X)
    (l : list (string * X)) :
  (forall a b, key a = key b -> a = b) ->
  NoDup (List.map fst l) -> In (n, x) l -> entry key (key n) l = Some (n, x).
Proof.
  intros Hinj. induction l as [|nm l IH]; intros Hnd Hin; [destruct Hin|].
  simpl in Hnd. apply NoDup_cons in Hnd as [Hfresh Hnd].
  unfold entry. simpl. destruct Hin as [->|Hin].
  - simpl. rewrite bool_decide_eq_true_2 by reflexivity. reflexivity.
  - rewrite bool_decide_eq_false_2.
    + apply IH; assumption.
    + intros Heq. apply Hinj in Heq. apply Hfresh.
      apply list_elem_of_In, in_map_iff. exists (n, x). split; [|exact Hin].
      simpl. congruence.
Qed.

Lemma entry_key {X} (key : string -> string) (n : string)
    (l : list (string * X)) :
  (forall a b, key a = key b -> a = b) ->
  entry key (key n) l = entry (fun a => a) n l.
Proof.
  intros Hinj. unfold entry. induction l as [|nm l IH]; [reflexivity|].
  simpl. rewrite IH.
  rewrite (bool_decide_ext (key (fst nm) = key n) (fst nm = n));
    [reflexivity|].
  split; [apply Hinj|intros ->; reflexivity].
Qed.

(** Accumulating the items of a dict changes the entry of each of
    its keys once, and no other entry. *)
Lemma fold_accumulate_lookup {X} (key : string -> string)
    (c : string * X -> Num) (l : list (string * X)) :
  (forall a b, key a = key b -> a = b) -> NoDup (List.map fst l) ->
  forall (values : gmap string Num) (k : string),
    fold_left (fun values nm => accumulate values (key (fst nm)) (c nm))
              l values !! k
    = match entry key k l with
      | Some nm => Some (num_add (default num_zero (values !! k)) (c nm))
      | None => values !! k
      end.
Proof.
  intros Hinj. induction l as [|nm l IH]; intros Hnd values k;
    [reflexivity|].
  simpl in Hnd. apply NoDup_cons in Hnd as [Hfresh Hnd].
  simpl fold_left. rewrite (IH Hnd). unfold entry at 2. simpl.
  rewrite accumulate_lookup.
  destruct (decide (k = key (fst nm))) as [->|Hne].
  - rewrite bool_decide_eq_true_2 by reflexivity.
    rewrite entry_none; [reflexivity|].
    intros n Hn Heq. apply Hinj in Heq. subst n.
    apply Hfresh, list_elem_of_In. exact Hn.
  - rewrite bool_decide_eq_false_2 by congruence. reflexivity.
Qed.

Lemma val_key_inj (validation : bool) (a b : string) :
  val_key validation a = val_key validation b -> a = b.
Proof.
  destruct validation; simpl; [apply suffix_inj|exact (fun E => E)].
Qed.

Lemma update_metrics_lookup (values : gmap string Num) (nb : nat)
    (lg tg : Out) (validation : bool) (k : string) :
  metrics_added values nb lg tg validation !! k
  = match entry (val_key validation) k metrics with
    | Some nm =>
        Some (num_add (default num_zero (values !! k))
                      (num_div (py_float (snd nm lg tg)) nb))
    | None => values !! k
    end.
Proof.
  unfold metrics_added.
  apply (fold_accumulate_lookup (val_key validation)
           (fun nm => num_div (py_float (snd nm lg tg)) nb) metrics).
  - apply val_key_inj.
  - apply metrics_nodup.
Qed.

Lemma train_aux_lookup (nb : nat) (values : gmap string Num)
    (aux : list (string * Num)) (k : string) :
  NoDup (List.map fst aux) ->
  train_aux nb values aux !! k
  = match item k aux with
    | Some a => Some (num_add (default num_zero (values !! k))
                              (num_div (py_float a) nb))
    | None => values !! k
    end.
Proof.
  intros Hnd. unfold train_aux.
  rewrite (fold_accumulate_lookup (fun a => a)
             (fun na => num_div (py_float (snd na)) nb) aux)
    by (auto || exact Hnd).
  unfold item, entry. destruct (List.find _ aux); reflexivity.
Qed.

Lemma test_aux_lookup (nb : nat) (values : gmap string Num)
    (aux : list (string * Num)) (name : string) :
  NoDup (List.map fst aux) ->
  test_aux nb values aux !! (name +:+ val_suffix)
  = match item name aux with
    | Some a => Some (num_add (default num_zero
                                 (values !! (name +:+ val_suffix)))
                              (num_div a nb))
    | None => values !! (name +:+ val_suffix)
    end.
Proof.
  intros Hnd. unfold test_aux.
  rewrite (fold_accumulate_lookup (val_key true)
             (fun na => num_div (snd na) nb) aux)
    by (apply val_key_inj || exact Hnd).
  change (name +:+ val_suffix) with (val_key true name).
  rewrite entry_key by apply val_key_inj.
  unfold item, entry. destruct (List.find _ aux); reflexivity.
Qed.

(** Across the batches: an entry is the sum, in order, of what each
    batch contributed to it. *)
Lemma values_after_lookup
    (step : gmap string Num -> BatchStep -> exn + gmap string Num)
    (c : BatchStep -> option Num) (k : string) (steps : list BatchStep) :
  (forall st values values',
      In st steps -> step values st = inr values' ->
      values' !! k = match c st with
                     | Some x => Some (num_add (default num_zero (values !! k)) x)
                     | None => values !! k
                     end) ->
  forall values values',
    values_after step values steps = inr values' ->
    values' !! k = match omap c steps with
                   | [] => values !! k
                   | xs => Some (num_sum (default num_zero (values !! k)) xs)
                   end.
Proof.
  induction steps as [|st steps IH]; intros Hstep values values' Hrun.
  - simpl in Hrun. injection Hrun as <-. reflexivity.
  - simpl in Hrun. destruct (step values st) as [e|values1] eqn:E;
      [discriminate|].
    pose proof (Hstep st values values1 (or_introl eq_refl) E) as H1.
    assert (IH' := IH (fun st' v v' Hin => Hstep st' v v' (or_intror Hin))
                     values1 values' Hrun).
    rewrite IH'.
    change (omap c (st :: steps))
      with (match c st with
            | Some x => x :: omap c steps
            | None => omap c steps
            end).
    destruct (c st) as [x|].
    + rewrite H1. simpl. destruct (omap c steps); reflexivity.
    + rewrite H1. reflexivity.
Qed.
End Bookkeeping.

(** ** [train] and [test] *)

Section TrainTestClaims.
Context `{Host}.






Lemma cycles_length
    (cycle : nat -> DataItem -> BatchStep -> list Event -> Prop)
    (it : nat) (bs : list DataItem) (steps : list BatchStep)
    (evs : list Event) :
  cycles cycle it bs steps evs -> length steps = length bs.
Proof. induction 1; simpl; congruence. Qed.

(** [train] when it returns: all the batches had their cycle. *)
Lemma train_ok (loader : Loader) (visualizer : option Visualizer)
    (s s' : State) (r : Num * gmap string Num) :
  train loader visualizer s = (inr r, s') ->
  exists steps evs,
    cycles (train_cycle visualizer) 0 (batches loader 0) steps evs
    /\ Forall produced steps
    /\ trace s' = (trace s ++ EvTrainMode :: evs)%list
    /\ values_after (train_values (len loader)) ∅ steps = inr (snd r)
    /\ fst r = np_mean (step_losses steps).
Proof.
  destruct (train_run loader visualizer s)
    as (steps & w' & evs & Hcycles & Hall & Hrun & Hlen).
  rewrite Hrun.
  destruct (values_after _ ∅ steps) as [e|values] eqn:Ev; [discriminate|].
  intros [= <- <-]. exists steps, evs.
  rewrite (Hlen values eq_refl) in Hcycles. unfold len in Hcycles.
  rewrite firstn_all in Hcycles.
  split; [exact Hcycles|]. split; [exact Hall|]. repeat split.
  exact Ev.
Qed.

Lemma train_total (loader : Loader) (visualizer : option Visualizer)
    (s : State) :
  loss_arity 2 -> exists r s', train loader visualizer s = (inr r, s').
Proof.
  intros Harity.
  destruct (train_run loader visualizer s)
    as (steps & w' & evs & Hcycles & Hall & Hrun & _).
  assert (Hv : exists values,
             values_after (train_values (len loader)) ∅ steps = inr values).
  { destruct (len_batches loader) as [Hnb|Hnil].
    - exact (train_values_arity (len loader) steps Hnb Harity Hall ∅).
    - apply cycles_length in Hcycles. rewrite Hnil, take_nil in Hcycles.
      destruct steps; [|discriminate]. exists ∅. reflexivity. }
  destruct Hv as (values & Hv).
  rewrite Hv in Hrun. eexists _, _. exact Hrun.
Qed.

(** C5.  Whenever [train] returns, every batch of the loader, in
    order, had the cycle zero_grad, the model on the first views, the
    model on the second views, the loss on these two outputs and the
    batch's labels, backward on the loss this call returned, the
    optimizer step; these calls are the whole history of the world
    between the state [train] was entered in and the state it left, each
    made on the world the call before left, with the result recorded;
    the first component returned is [np.mean] of the float values of
    the losses these calls returned, in the order of the batches, and
    the second the dict the bookkeeping made of their other outputs.
    [train] does return when the loss returns at most [logits] and
    [target] besides the loss. *)
Theorem train_cycles_and_mean (loader : Loader)
    (visualizer : option Visualizer) (s : State) :
  (forall r s', train loader visualizer s = (inr r, s') ->
     exists steps evs,
       length steps = length (batches loader 0)
       /\ trace s' = (trace s ++ EvTrainMode :: evs)%list
       /\ cycles (train_cycle visualizer) 0 (batches loader 0) steps evs
       /\ history visualizer (world s) (EvTrainMode :: evs) (world s')
       /\ fst r = np_mean (step_losses steps)
       /\ values_after (train_values (len loader)) ∅ steps = inr (snd r))
  /\ (loss_arity 2 -> exists r s', train loader visualizer s = (inr r, s')).
Proof.
  split; [|apply train_total].
  intros r s' Hrun.
  destruct (train_ok loader visualizer s s' _ Hrun)
    as (steps & evs & Hcycles & _ & Htrace & Hvalues & Hloss).
  exists steps, evs.
  split; [exact (cycles_length _ _ _ _ _ Hcycles)|].
  split; [exact Htrace|]. split; [exact Hcycles|].
  split; [|split; [exact Hloss|exact Hvalues]].
  exact (faithful_history visualizer _ s s' _ _
           (faithful_train loader visualizer) Hrun Htrace).
Qed.


(** C9.  Whenever [test] returns, with or without visuals, its first
    three components [y], [y_true] and [X] are empty lists; and it
    does return when the loss returns at most two extra outputs and,
    if visuals are asked for, the model can give them. *)
Theorem test_returns_empty_lists (loader : Loader) (with_visuals : bool)
    (s : State) :
  (forall r s', test loader with_visuals s = (inr r, s') ->
     res_y r = [] /\ res_y_true r = [] /\ res_X r = [])
  /\ (loss_arity 2 ->
      (with_visuals = true -> get_current_visuals <> None) ->
      exists r s', test loader with_visuals s = (inr r, s')).
Proof.
  split.
  - intros r s' Hrun.
    destruct (test_ok loader with_visuals s s' r Hrun)
      as (_ & _ & _ & _ & _ & _ & _ & Hy & Hyt & HX).
    auto.
  - apply test_total.
Qed.
End TrainTestClaims.


(** ** Metric aggregation *)

Section Aggregation.
Context `{Host}.

Lemma call_update_metrics_paired (values values' : gmap string Num)
    (nb : nat) (lg tg : Out) (kw : option bool) :
  call_update_metrics values nb [Some lg; Some tg] kw = inr values' ->
  values' = metrics_added values nb lg tg (default false kw).
Proof. apply update_metrics_returned. Qed.

Lemma call_update_metrics_bare (values : gmap string Num) (nb : nat)
    (kw : option bool) :
  call_update_metrics values nb [] kw = inr values.
Proof. reflexivity. Qed.

Local Opaque update_metrics.

Lemma produced_nodup (st : BatchStep) :
  produced st -> NoDup (List.map fst (st_aux st)).
Proof.
  intros [_ [->|(f & w & Hf & <-)]]; [constructor|].
  apply (aux_losses_nodup f). exact Hf.
Qed.

Lemma produced_paired (st : BatchStep) :
  loss_paired -> produced st ->
  exists lg tg, st_args st = [Some lg; Some tg].
Proof.
  intros Hpaired [(z_i & z_j & lbl & w & Hl) _].
  destruct (Hpaired z_i z_j lbl w) as (lg & tg & Hargs).
  rewrite Hl in Hargs. exists lg, tg. exact Hargs.
Qed.

Lemma produced_bare (st : BatchStep) :
  loss_bare -> produced st -> st_args st = [].
Proof.
  intros Hbare [(z_i & z_j & lbl & w & Hl) _].
  pose proof (Hbare z_i z_j lbl w) as Hargs. rewrite Hl in Hargs. exact Hargs.
Qed.

Lemma item_none (name : string) (aux : list (string * Num)) :
  ~ In name (List.map fst aux) -> item name aux = None.
Proof.
  intros Hno. unfold item.
  change (List.find _ aux) with (entry (fun a => a) name aux).
  rewrite (entry_none (fun a => a) name aux (X := Num)); [reflexivity|].
  intros n Hn ->. exact (Hno Hn).
Qed.

Lemma produced_apart (st : BatchStep) (name : string) :
  names_apart -> produced st -> In name (List.map fst metrics) ->
  item name (st_aux st) = None.
Proof.
  intros Hapart [_ Haux] Hin. apply item_none.
  destruct Haux as [->|(f & w & Hf & <-)]; [exact (fun F => F)|].
  intros Hn. exact (Hapart f w name Hf Hn Hin).
Qed.

Lemma metric_name_in (name : string) (metric : Out -> Out -> Num) :
  In (name, metric) metrics -> In name (List.map fst metrics).
Proof. intros Hin. apply in_map_iff. exists (name, metric). auto. Qed.

Lemma entry_metric (validation : bool) (name : string)
    (metric : Out -> Out -> Num) :
  In (name, metric) metrics ->
  entry (val_key validation) (val_key validation name) metrics
  = Some (name, metric).
Proof.
  intros Hin. apply entry_in;
    [apply val_key_inj|apply metrics_nodup|exact Hin].
Qed.

Lemma entry_not_metric (validation : bool) (name : string) :
  ~ In name (List.map fst metrics) ->
  entry (val_key validation) (val_key validation name) metrics = None.
Proof.
  intros Hno. apply entry_none. intros n Hn Heq.
  apply val_key_inj in Heq. subst n. exact (Hno Hn).
Qed.

(** One batch of [train]: the entry of a metric, of another name. *)
Lemma train_values_metric (nb : nat) (st : BatchStep)
    (values values' : gmap string Num) (name : string)
    (metric : Out -> Out -> Num) :
  loss_paired -> names_apart -> produced st -> In (name, metric) metrics ->
  train_values nb values st = inr values' ->
  values' !! name
  = match (fun p : Out * Out => num_div (py_float (metric (fst p) (snd p))) nb)
            <$> paired_outputs st with
    | Some x => Some (num_add (default num_zero (values !! name)) x)
    | None => values !! name
    end.
Proof.
  intros Hpaired Hapart Hprod Hin.
  destruct (produced_paired st Hpaired Hprod) as (lg & tg & Hargs).
  unfold train_values, paired_outputs. rewrite Hargs.
  cbn [fmap option_fmap option_map fst snd].
  intros Hrun. apply call_update_metrics_paired in Hrun. subst values'.
  cbn [default].
  rewrite (update_metrics_lookup _ nb lg tg false name).
  change name with (val_key false name) at 1.
  rewrite (entry_metric false name metric Hin). simpl.
  rewrite train_aux_lookup by (apply produced_nodup; exact Hprod).
  rewrite (produced_apart st name Hapart Hprod (metric_name_in _ _ Hin)).
  reflexivity.
Qed.

Lemma train_values_other (nb : nat) (st : BatchStep)
    (values values' : gmap string Num) (name : string) :
  (loss_paired /\ ~ In name (List.map fst metrics)) \/ loss_bare ->
  produced st ->
  train_values nb values st = inr values' ->
  values' !! name
  = match (fun a => num_div (py_float a) nb) <$> item name (st_aux st) with
    | Some x => Some (num_add (default num_zero (values !! name)) x)
    | None => values !! name
    end.
Proof.
  intros Hloss Hprod Hrun.
  assert (Haux : values' !! name
                 = train_aux nb values (st_aux st) !! name).
  { unfold train_values in Hrun. destruct Hloss as [[Hpaired Hno]|Hbare].
    - destruct (produced_paired st Hpaired Hprod) as (lg & tg & Hargs).
      rewrite Hargs in Hrun. apply call_update_metrics_paired in Hrun.
      subst values'. cbn [default].
      rewrite (update_metrics_lookup _ nb lg tg false name).
      change name with (val_key false name) at 1.
      rewrite (entry_not_metric false name Hno). reflexivity.
    - rewrite (produced_bare st Hbare Hprod), call_update_metrics_bare in Hrun.
      injection Hrun as <-. reflexivity. }
  rewrite Haux, train_aux_lookup by (apply produced_nodup; exact Hprod).
  destruct (item name (st_aux st)); reflexivity.
Qed.

(** One batch of [test]. *)
Lemma test_values_metric (nb : nat) (st : BatchStep)
    (values values' : gmap string Num) (name : string)
    (metric : Out -> Out -> Num) :
  loss_paired -> names_apart -> produced st -> In (name, metric) metrics ->
  test_values nb values st = inr values' ->
  values' !! (name +:+ val_suffix)
  = match (fun p : Out * Out => num_div (py_float (metric (fst p) (snd p))) nb)
            <$> paired_outputs st with
    | Some x =>
        Some (num_add (default num_zero (values !! (name +:+ val_suffix))) x)
    | None => values !! (name +:+ val_suffix)
    end.
Proof.
  intros Hpaired Hapart Hprod Hin.
  destruct (produced_paired st Hpaired Hprod) as (lg & tg & Hargs).
  unfold test_values, paired_outputs. rewrite Hargs.
  destruct (call_update_metrics values nb [Some lg; Some tg] (Some true))
    as [e|values1] eqn:Ecall; [discriminate|].
  apply call_update_metrics_paired in Ecall. subst values1.
  cbn [fmap option_fmap option_map fst snd default].
  intros [= <-].
  rewrite test_aux_lookup by (apply produced_nodup; exact Hprod).
  rewrite (produced_apart st name Hapart Hprod (metric_name_in _ _ Hin)).
  rewrite (update_metrics_lookup _ nb lg tg true).
  change (name +:+ val_suffix) with (val_key true name).
  rewrite (entry_metric true name metric Hin). reflexivity.
Qed.

Lemma test_values_other (nb : nat) (st : BatchStep)
    (values values' : gmap string Num) (name : string) :
  (loss_paired /\ ~ In name (List.map fst metrics)) \/ loss_bare ->
  produced st ->
  test_values nb values st = inr values' ->
  values' !! (name +:+ val_suffix)
  = match (fun a => num_div a nb) <$> item name (st_aux st) with
    | Some x =>
        Some (num_add (default num_zero (values !! (name +:+ val_suffix))) x)
    | None => values !! (name +:+ val_suffix)
    end.
Proof.
  intros Hloss Hprod Hrun. unfold test_values in Hrun.
  assert (Hm : exists values1,
             values' = test_aux nb values1 (st_aux st)
             /\ values1 !! (name +:+ val_suffix)
                = values !! (name +:+ val_suffix)).
  { destruct Hloss as [[Hpaired Hno]|Hbare].
    - destruct (produced_paired st Hpaired Hprod) as (lg & tg & Hargs).
      rewrite Hargs in Hrun.
      destruct (call_update_metrics values nb [Some lg; Some tg] (Some true))
        as [e|values1] eqn:Ecall; [discriminate|].
      apply call_update_metrics_paired in Ecall. subst values1.
      injection Hrun as <-. cbn [default].
      eexists. split; [reflexivity|].
      rewrite (update_metrics_lookup _ nb lg tg true).
      change (name +:+ val_suffix) with (val_key true name).
      rewrite (entry_not_metric true name Hno). reflexivity.
    - rewrite (produced_bare st Hbare Hprod), call_update_metrics_bare in Hrun.
      injection Hrun as <-. eexists. split; reflexivity. }
  destruct Hm as (values1 & -> & Hsame).
  rewrite test_aux_lookup by (apply produced_nodup; exact Hprod).
  rewrite Hsame. destruct (item name (st_aux st)); reflexivity.
Qed.

Lemma accumulated_lookup
    (step : gmap string Num -> BatchStep -> exn + gmap string Num)
    (c : BatchStep -> option Num) (k : string) (steps : list BatchStep)
    (values : gmap string Num) :
  Forall produced steps ->
  (forall st v v', produced st -> step v st = inr v' ->
     v' !! k = match c st with
               | Some x => Some (num_add (default num_zero (v !! k)) x)
               | None => v !! k
               end) ->
  values_after step ∅ steps = inr values ->
  values !! k = accumulated (omap c steps).
Proof.
  intros Hall Hstep Hrun.
  rewrite (values_after_lookup step c k steps) with (values := ∅)
    by (try exact Hrun; intros st v v' Hin; apply Hstep;
        rewrite Forall_forall in Hall; apply Hall, list_elem_of_In, Hin).
  rewrite lookup_empty. unfold accumulated.
  destruct (omap c steps); reflexivity.
Qed.

Lemma metric_terms_length (nb : nat) (metric : Out -> Out -> Num)
    (steps : list BatchStep) :
  loss_paired -> Forall produced steps ->
  length (metric_terms nb metric steps) = length steps.
Proof.
  intros Hpaired. unfold metric_terms.
  induction 1 as [|st steps Hst _ IH]; [reflexivity|].
  destruct (produced_paired st Hpaired Hst) as (lg & tg & Hargs).
  change (omap ?f (st :: steps))
    with (match f st with Some x => x :: omap f steps | None => omap f steps end).
  unfold paired_outputs at 1. rewrite Hargs. simpl. rewrite IH. reflexivity.
Qed.
(** At validation a key that is no suffixed name is never written
    when the loss returns the loss only. *)
Lemma test_values_unsuffixed (nb : nat) (st : BatchStep)
    (values values' : gmap string Num) (k : string) :
  loss_bare -> produced st -> (forall name, k <> name +:+ val_suffix) ->
  test_values nb values st = inr values' ->
  values' !! k = values !! k.
Proof.
  intros Hbare Hprod Hk. unfold test_values.
  rewrite (produced_bare st Hbare Hprod), call_update_metrics_bare.
  intros [= <-]. unfold test_aux.
  rewrite (fold_accumulate_lookup (val_key true)
             (fun na => num_div (snd na) nb) (st_aux st))
    by (apply val_key_inj || (apply produced_nodup; exact Hprod)).
  rewrite entry_none; [reflexivity|].
  intros n _ Heq. exact (Hk n (eq_sym Heq)).
Qed.

Lemma omap_none (steps : list BatchStep) :
  omap (fun _ : BatchStep => @None Num) steps = [].
Proof. induction steps as [|st steps IH]; [reflexivity|exact IH]. Qed.

Lemma loss_paired_arity : loss_paired -> loss_arity 2.
Proof.
  intros Hpaired z_i z_j lbl w.
  destruct (Hpaired z_i z_j lbl w) as (lg & tg & ->). simpl. lia.
Qed.

Lemma loss_bare_arity : loss_bare -> loss_arity 2.
Proof.
  intros Hbare z_i z_j lbl w. rewrite (Hbare z_i z_j lbl w). simpl. lia.
Qed.

Local Transparent update_metrics.

(** C6 (as amended).  When the loss returns [logits] and [target],
    both present, on every batch and no auxiliary loss has the name of
    a metric: the dict [values] returned by [train] maps each metric
    name, and the dict returned by [test] maps each metric name
    suffixed with " on validation set", to
    [0 + m_1/nb_batch + ... + m_n/nb_batch], added in the order of the
    batches, [m_i] the float of the metric on the [logits] and
    [target] of batch [i], provided the loader has a batch (no entry
    otherwise); the auxiliary losses of [get_aux_losses] are
    accumulated the same way under their names (suffixed in [test],
    and without [float] there). *)
Theorem metrics_accumulated (loader : Loader) (visualizer : option Visualizer)
    (with_visuals : bool) (s : State) :
  loss_paired -> names_apart ->
  (exists steps evs loss values s',
     train loader visualizer s = (inr (loss, values), s')
     /\ cycles (train_cycle visualizer) 0 (batches loader 0) steps evs
     /\ trace s' = (trace s ++ EvTrainMode :: evs)%list
     /\ (forall name metric, In (name, metric) metrics ->
           length (metric_terms (len loader) metric steps) = len loader
           /\ values !! name
              = accumulated (metric_terms (len loader) metric steps))
     /\ (forall name, ~ In name (List.map fst metrics) ->
           values !! name
           = accumulated (train_aux_terms (len loader) name steps)))
  /\ ((with_visuals = true -> get_current_visuals <> None) ->
      exists steps evs r s',
        test loader with_visuals s = (inr r, s')
        /\ cycles (fun _ => test_cycle with_visuals) 0 (batches loader 0)
                  steps evs
        /\ trace s' = (trace s ++ EvEvalMode :: evs)%list
        /\ (forall name metric, In (name, metric) metrics ->
              length (metric_terms (len loader) metric steps) = len loader
              /\ res_values r !! (name +:+ val_suffix)
                 = accumulated (metric_terms (len loader) metric steps))
        /\ (forall name, ~ In name (List.map fst metrics) ->
              res_values r !! (name +:+ val_suffix)
              = accumulated (test_aux_terms (len loader) name steps))).
Proof.
  intros Hpaired Hapart. split.
  - destruct (train_total loader visualizer s (loss_paired_arity Hpaired))
      as ([loss values] & s' & Hrun).
    destruct (train_ok loader visualizer s s' _ Hrun)
      as (steps & evs & Hcycles & Hall & Htrace & Hvalues & _).
    simpl in Hvalues.
    exists steps, evs, loss, values, s'. split; [exact Hrun|].
    split; [exact Hcycles|]. split; [exact Htrace|]. split.
    + intros name metric Hin. split.
      * rewrite (metric_terms_length _ _ steps Hpaired Hall).
        exact (cycles_length _ _ _ _ _ Hcycles).
      * apply (accumulated_lookup (train_values (len loader))); auto.
        intros st v v' Hst. apply train_values_metric; assumption.
    + intros name Hno.
      apply (accumulated_lookup (train_values (len loader))); auto.
      intros st v v' Hst. apply train_values_other; auto.
  - intros Hvisuals.
    destruct (test_total loader with_visuals s (loss_paired_arity Hpaired)
                Hvisuals) as (r & s' & Hrun).
    destruct (test_ok loader with_visuals s s' r Hrun)
      as (steps & evs & Hcycles & Hall & Htrace & Hvalues & _).
    exists steps, evs, r, s'. split; [exact Hrun|].
    split; [exact Hcycles|]. split; [exact Htrace|]. split.
    + intros name metric Hin. split.
      * rewrite (metric_terms_length _ _ steps Hpaired Hall).
        exact (cycles_length _ _ _ _ _ Hcycles).
      * apply (accumulated_lookup (test_values (len loader))); auto.
        intros st v v' Hst. apply test_values_metric; assumption.
    + intros name Hno.
      apply (accumulated_lookup (test_values (len loader))); auto.
      intros st v v' Hst. apply test_values_other; auto.
Qed.

(** C10.  [update_metrics] returns, and leaves the dict [values]
    unchanged, whenever [logits] is [None] or [target] is [None],
    whatever [nb_batch] is; and when the
    loss returns the loss only, [train] and [test] return a dict whose
    entries are the accumulated auxiliary losses and nothing else:
    the metrics add no entry and change none. *)
Theorem update_metrics_frame :
  (forall values nb logits target validation,
     logits = None \/ target = None ->
     update_metrics values nb logits target validation = (inr tt, values))
  /\ (loss_bare ->
      forall (loader : Loader) (visualizer : option Visualizer)
             (with_visuals : bool) (s : State),
        (exists steps evs loss values s',
           train loader visualizer s = (inr (loss, values), s')
           /\ cycles (train_cycle visualizer) 0 (batches loader 0) steps evs
           /\ trace s' = (trace s ++ EvTrainMode :: evs)%list
           /\ (forall k, values !! k
                         = accumulated (train_aux_terms (len loader) k steps)))
        /\ ((with_visuals = true -> get_current_visuals <> None) ->
            exists steps evs r s',
              test loader with_visuals s = (inr r, s')
              /\ cycles (fun _ => test_cycle with_visuals) 0
                        (batches loader 0) steps evs
              /\ trace s' = (trace s ++ EvEvalMode :: evs)%list
              /\ (forall name,
                    res_values r !! (name +:+ val_suffix)
                    = accumulated (test_aux_terms (len loader) name steps))
              /\ (forall k, (forall name, k <> name +:+ val_suffix) ->
                            res_values r !! k = None))).
Proof.
  split.
  - intros values nb logits target validation. apply update_metrics_absent.
  - intros Hbare loader visualizer with_visuals s. split.
    + destruct (train_total loader visualizer s (loss_bare_arity Hbare))
        as ([loss values] & s' & Hrun).
      destruct (train_ok loader visualizer s s' _ Hrun)
        as (steps & evs & Hcycles & Hall & Htrace & Hvalues & _).
      simpl in Hvalues.
      exists steps, evs, loss, values, s'. split; [exact Hrun|].
      split; [exact Hcycles|]. split; [exact Htrace|].
      intros k. apply (accumulated_lookup (train_values (len loader))); auto.
      intros st v v' Hst. apply train_values_other; auto.
    + intros Hvisuals.
      destruct (test_total loader with_visuals s (loss_bare_arity Hbare)
                  Hvisuals) as (r & s' & Hrun).
      destruct (test_ok loader with_visuals s s' r Hrun)
        as (steps & evs & Hcycles & Hall & Htrace & Hvalues & _).
      exists steps, evs, r, s'. split; [exact Hrun|].
      split; [exact Hcycles|]. split; [exact Htrace|]. split.
      * intros name.
        apply (accumulated_lookup (test_values (len loader))); auto.
        intros st v v' Hst. apply test_values_other; auto.
      * intros k Hk.
        rewrite (accumulated_lookup (test_values (len loader))
                   (fun _ => None) k steps (res_values r) Hall);
          [rewrite omap_none; reflexivity| |exact Hvalues].
        intros st v v' Hst. apply test_values_unsuffixed; assumption.
Qed.
End Aggregation.

(** ** The dataset adapters *)

Section Adapters.
Context `{ParentDataset}.

Lemma getitem_pair_of_views (idx : Z) (g : Rng) :
  pair_of_views Dataset.getitem idx g.
Proof.
  unfold pair_of_views, Dataset.getitem, Dataset.np_stack. split.
  - intros x1 y1 g1 x2 y2 g2 H1 H2 Hshape.
    rewrite H1, H2, Hshape. reflexivity.
  - intros x y g'.
    destruct (super_getitem idx (np_random_seed g)) as [[e|[x1 y1]] g1] eqn:E1;
      [discriminate|].
    destruct (super_getitem idx g1) as [[e|[x2 y2]] g2] eqn:E2; [discriminate|].
    destruct (same_shape x1 x2); [|discriminate].
    intros [= <- <- <-]. split; [reflexivity|].
    exists x1, y1, g1, x2. split; [reflexivity|]. split; [exact E2|reflexivity].
Qed.
End Adapters.

(** C7.  For every index, [SimCLROpenBHB.__getitem__] and
    [SimCLRSubOpenBHB.__getitem__] return a pair whose first component
    stacks, along a new leading axis of size two, two views of the
    sample drawn by two successive calls of the parent's
    [__getitem__] at that index, and whose second component is the
    label the parent's [__getitem__] returned at the same index. *)
Theorem adapters_pair_of_views (OpenBHB SubOpenBHB : ParentDataset)
    (idx : Z) :
  (forall g, @pair_of_views OpenBHB (SimCLROpenBHB_getitem OpenBHB) idx g)
  /\ (forall g,
        @pair_of_views SubOpenBHB (SimCLRSubOpenBHB_getitem SubOpenBHB) idx g).
Proof.
  split; intros g; apply getitem_pair_of_views.
Qed.

(** ** [train], [test] and the adapters on concrete inputs *)

Section Runs.
Import Toy Fixtures.

Lemma adapters_pair_of_views_witness :
  SimCLROpenBHB_getitem parent 1 0%nat = (inr ([1100; 1101], 1), 102%nat).
Proof.
  apply (proj1 (proj1 (adapters_pair_of_views parent parent 1) 0%nat)
           1100 1 101%nat 1101 1 102%nat); reflexivity.
Defined.

Lemma plain_loss_bare : @loss_bare plain.
Proof. intros z_i z_j lbl w. reflexivity. Qed.

Lemma scored_loss_paired : @loss_paired scored.
Proof. intros z_i z_j lbl w. exists 1, 2. reflexivity. Qed.

Lemma scored_names_apart : @names_apart scored.
Proof.
  intros f w name Hf Hin Hm. simpl in Hf. injection Hf as <-.
  simpl in Hin, Hm. destruct Hin as [<-|[]]. destruct Hm as [Hm|[]].
  discriminate Hm.
Qed.

Lemma plain_loss_arity : @loss_arity plain 2.
Proof. intros z_i z_j lbl w. simpl. lia. Qed.

Lemma train_cycles_and_mean_witness :
  exists r s' steps evs,
    @train plain labelled_three (Some tt) s0 = (inr r, s')
    /\ length steps = 2%nat
    /\ trace s' = (trace s0 ++ EvTrainMode :: evs)%list
    /\ @cycles plain (@train_cycle plain (Some tt)) 0
         (batches labelled_three 0) steps evs
    /\ @history plain (Some tt) (world s0) (EvTrainMode :: evs) (world s')
    /\ fst r = @np_mean plain (@step_losses plain steps).
Proof.
  destruct (@train_cycles_and_mean plain labelled_three (Some tt) s0)
    as [Hok Hret].
  destruct (Hret plain_loss_arity) as (r & s' & Hrun).
  destruct (Hok r s' Hrun)
    as (steps & evs & Hlen & Htrace & Hcycles & Hhist & Hloss & _).
  exists r, s', steps, evs. split; [exact Hrun|]. split; [exact Hlen|].
  split; [exact Htrace|]. split; [exact Hcycles|].
  split; [exact Hhist|exact Hloss].
Defined.


Lemma test_returns_empty_lists_witness :
  exists r s',
    @test plain labelled_three true s0 = (inr r, s')
    /\ res_y r = [] /\ res_y_true r = [] /\ res_X r = [].
Proof.
  destruct (@test_returns_empty_lists plain labelled_three true s0)
    as [Hempty Hret].
  destruct Hret as (r & s' & Hrun).
  - intros z_i z_j lbl w. simpl. lia.
  - intros _. discriminate.
  - exists r, s'. split; [exact Hrun|]. exact (Hempty r s' Hrun).
Defined.

(** C6 fails as stated.  With a metric and an auxiliary loss of the
    same name, the entry holds both sums: one batch, the metric worth
    1 and the auxiliary loss 2, give 3 where the mean of the metric is
    1.  And with a loader that has no batch the dict has no entry for
    the metric. *)
Lemma metrics_collide :
  (match fst (@train colliding colliding_one None (state0 colliding 0%nat)) with
   | inr (_, values) => values !! "acc"
   | inl _ => None
   end = Some (3 # 1)%Q
   /\ @accumulated colliding
        [@num_div colliding
           (@py_float colliding ((fun _ _ : Z => (1 # 1)%Q) 1 2)) 1]
      = Some (1 # 1)%Q)
  /\ match fst (@train scored scored_none None (state0 scored 0%nat)) with
     | inr (_, values) => values !! "acc"
     | inl _ => Some (0 # 1)%Q
     end = None.
Proof. repeat split; vm_compute; reflexivity. Qed.

Lemma metrics_accumulated_witness :
  exists steps evs loss values s',
    @train scored scored_two None (state0 scored 0%nat)
    = (inr (loss, values), s')
    /\ @cycles scored (@train_cycle scored None) 0 (batches scored_two 0)
         steps evs
    /\ trace s' = (trace (state0 scored 0%nat) ++ EvTrainMode :: evs)%list
    /\ (forall name metric, In (name, metric) (@metrics scored) ->
          length (@metric_terms scored (len scored_two) metric steps)
          = len scored_two
          /\ values !! name
             = @accumulated scored
                 (@metric_terms scored (len scored_two) metric steps))
    /\ (forall name, ~ In name (List.map fst (@metrics scored)) ->
          values !! name
          = @accumulated scored
              (@train_aux_terms scored (len scored_two) name steps)).
Proof.
  exact (proj1 (@metrics_accumulated scored scored_two None true
                  (state0 scored 0%nat)
                  scored_loss_paired scored_names_apart)).
Defined.

Lemma update_metrics_frame_witness :
  @update_metrics scored ∅ 2 None (Some 2) true = (inr tt, ∅)
  /\ exists steps evs loss values s',
       @train plain labelled_three None s0 = (inr (loss, values), s')
       /\ @cycles plain (@train_cycle plain None) 0
            (batches labelled_three 0) steps evs
       /\ trace s' = (trace s0 ++ EvTrainMode :: evs)%list
       /\ (forall k, values !! k
                     = @accumulated plain
                         (@train_aux_terms plain (len labelled_three) k steps)).
Proof.
  split.
  - apply (proj1 (@update_metrics_frame scored)). left. reflexivity.
  - exact (proj1 (proj2 (@update_metrics_frame plain) plain_loss_bare
                    labelled_three None true s0)).
Defined.
End Runs.

(** * Further properties of the code *)

(** ** The conversion of [M] *)

Lemma float_of_int_overflow (M : Z) :
  2 ^ 1024 <= Z.abs M ->
  float_of_int M = inl (OverflowError "int too large to convert to float").
Proof.
  intros HM. unfold float_of_int. cbv zeta.
  set (a := Z.abs M) in *.
  assert (H53 : (2 : Z) ^ 53 <= 2 ^ 1024) by (apply Z.pow_le_mono_r; lia).
  assert (Ha : 0 < a) by (pose proof (Z.pow_pos_nonneg 2 1024); lia).
  destruct (a <? 2 ^ 53) eqn:E; [apply Z.ltb_lt in E; lia|].
  assert (Hlog : 1024 <= Z.log2 a) by (apply Z.log2_le_pow2; [exact Ha|exact HM]).
  set (e := Z.log2 a - 52) in *.
  assert (He : 0 <= e) by (unfold e; lia).
  assert (Hsplit : 2 ^ Z.log2 a = 2 ^ 52 * 2 ^ e).
  { rewrite <- Z.pow_add_r by lia. f_equal. unfold e. lia. }
  assert (Hlow : 2 ^ Z.log2 a <= a) by (apply Z.log2_spec; exact Ha).
  assert (Hbig : (2 : Z) ^ 1024 <= 2 ^ Z.log2 a)
    by (apply Z.pow_le_mono_r; lia).
  assert (Hpe : 0 < 2 ^ e) by (apply Z.pow_pos_nonneg; lia).
  set (P := 2 ^ e) in *.
  assert (Hq : 2 ^ 52 <= a / P).
  { apply Z.div_le_lower_bound; [exact Hpe|]. rewrite Z.mul_comm. lia. }
  set (q := a / P) in *.
  match goal with
  | |- (if 2 ^ 1024 <=? ?q' * P then _ else _) = _ =>
      assert (Hq' : q <= q') by (destruct (_ || _); lia);
      assert (Hv : 2 ^ 1024 <= q' * P)
  end.
  { etransitivity; [exact Hbig|]. rewrite Hsplit.
    apply Z.mul_le_mono_nonneg_r; lia. }
  apply Z.leb_le in Hv. rewrite Hv. reflexivity.
Qed.

(** X1.  For every int [M] of magnitude below [2^53] the
    even-sample-count check passes exactly when [M] is even, and for
    an odd [M] it raises the [AssertionError] of the check. *)
Theorem parity_check_below_2p53 (M : Z) :
  Z.abs M < 2 ^ 53 ->
  (even_sample_count_check M = inr tt <-> Z.even M = true)
  /\ (Z.even M = false ->
      even_sample_count_check M
      = inl (AssertionError "Nb of feature vectors averaged should be odd")).
Proof.
  intros HM. rewrite (even_sample_count_check_exact M HM).
  destruct (Z.even M).
  - split; [split; reflexivity|discriminate].
  - split; [split; discriminate|reflexivity].
Qed.

Lemma parity_check_below_2p53_witness :
  even_sample_count_check 10 = inr tt
  /\ even_sample_count_check 7
     = inl (AssertionError "Nb of feature vectors averaged should be odd").
Proof.
  split.
  - apply (proj1 (parity_check_below_2p53 10 eq_refl)). reflexivity.
  - apply (proj2 (parity_check_below_2p53 7 eq_refl)). reflexivity.
Defined.

(** ** More on the feature-averaging evaluation *)

Section FeaturesAvgTestMore.
Context `{Host}.




(** X2.  From [2^1024] on in magnitude, [M/2.0] cannot convert [M]:
    [features_avg_test] raises [OverflowError] and does nothing else. *)
Theorem features_avg_test_overflow (loader : Loader) (M : Z) (s : State) :
  2 ^ 1024 <= Z.abs M ->
  features_avg_test loader M s
  = (inl (OverflowError "int too large to convert to float"), s).
Proof.
  intros HM. unfold features_avg_test, bind, even_sample_count_check, truediv_2.
  rewrite (float_of_int_overflow M HM). reflexivity.
Qed.

(** X3.  With an even [M] below 2 that passes the check (0, -2, ...)
    and a sequential sampler, [range(M//2)] is empty: the model is put
    in evaluation mode, the loader is not traversed, and indexing the
    empty [y_true] raises [IndexError]. *)
Theorem features_avg_test_no_pass (loader : Loader) (M : Z) (s : State) :
  even_sample_count_check M = inr tt -> M < 2 ->
  is_sequential (sampler loader) = true ->
  features_avg_test loader M s
  = (inl (IndexError "too many indices for array"),
     {| world := model_eval (world s);
        trace := (trace s ++ [EvEvalMode])%list |}).
Proof.
  intros Hcheck HM Hseq.
  assert (Hn : Z.to_nat (M / 2) = 0%nat).
  { assert (M / 2 <= 0) by (apply Z.lt_succ_r, Z.div_lt_upper_bound; lia).
    lia. }
  unfold features_avg_test, bind at 1. rewrite Hcheck. simpl lift.
  unfold ret at 1. rewrite Hseq, Hn. reflexivity.
Qed.

End FeaturesAvgTestMore.

Section FeaturesAvgTestMoreRuns.
Import Toy Fixtures.

Lemma features_avg_test_overflow_witness :
  @features_avg_test plain labelled_three (2 ^ 1024) s0
  = (inl (OverflowError "int too large to convert to float"), s0).
Proof.
  apply (@features_avg_test_overflow plain labelled_three (2 ^ 1024) s0).
  apply Z.leb_le. vm_compute. reflexivity.
Defined.

Lemma features_avg_test_no_pass_witness :
  @features_avg_test plain labelled_three 0 s0
  = (inl (IndexError "too many indices for array"),
     @Build_State plain 0%nat [EvEvalMode]).
Proof.
  apply (@features_avg_test_no_pass plain labelled_three 0 s0);
    reflexivity.
Defined.
End FeaturesAvgTestMoreRuns.

(** ** The layout of the arrays of [features_avg_test] *)

Section Layout.
Context `{Host}.




End Layout.

Section LayoutRuns.
Import Toy Fixtures.

End LayoutRuns.

(** ** More on the bookkeeping of [values] *)

Section Keys.
Context `{Host}.

(** All the keys of a dict satisfy [P]. *)
Definition keys_in (P : string -> Prop) (values : gmap string Num) : Prop :=
  forall k, is_Some (values !! k) -> P k.

(** The key ends with " on validation set". *)
Definition suffixed (k : string) : Prop :=
  exists name, k = name +:+ val_suffix.

(** The key is the name of a metric or of an auxiliary loss. *)
Definition known_name (k : string) : Prop :=
  In k (List.map fst metrics)
  \/ exists f w, get_aux_losses = Some f /\ In k (List.map fst (fst (f w))).

Lemma keys_in_empty (P : string -> Prop) : keys_in P ∅.
Proof. intros k [v Hv]. rewrite lookup_empty in Hv. discriminate. Qed.

Lemma accumulate_keys (P : string -> Prop) (values : gmap string Num)
    (name : string) (x : Num) :
  keys_in P values -> P name -> keys_in P (accumulate values name x).
Proof.
  intros Hkeys Hname k. rewrite accumulate_lookup.
  destruct (decide (k = name)) as [->|Hne]; [intros _; exact Hname|].
  apply Hkeys.
Qed.

Lemma fold_accumulate_keys {X} (P : string -> Prop) (key : X -> string)
    (c : X -> Num) (l : list X) :
  (forall x, In x l -> P (key x)) ->
  forall values, keys_in P values ->
    keys_in P (fold_left (fun values x => accumulate values (key x) (c x))
                         l values).
Proof.
  induction l as [|x l IH]; intros Hl values Hkeys; [exact Hkeys|].
  simpl. apply IH.
  - intros y Hy. apply Hl. right. exact Hy.
  - apply accumulate_keys; [exact Hkeys|]. apply Hl. left. reflexivity.
Qed.

Lemma update_metrics_keys (P : string -> Prop)
    (values values' : gmap string Num)
    (nb : nat) (logits target : option Out) (validation : bool) :
  (forall name, In name (List.map fst metrics) ->
                P (val_key validation name)) ->
  keys_in P values ->
  updated (update_metrics values nb logits target validation) = inr values' ->
  keys_in P values'.
Proof.
  intros Hnames Hkeys.
  destruct logits as [lg|];
    [|rewrite update_metrics_absent by (left; reflexivity);
      intros [= <-]; exact Hkeys].
  destruct target as [tg|];
    [|rewrite update_metrics_absent by (right; reflexivity);
      intros [= <-]; exact Hkeys].
  intros Hrun. apply update_metrics_returned in Hrun. subst values'.
  unfold metrics_added.
  apply (fold_accumulate_keys P
           (fun nm : string * (Out -> Out -> Num) =>
              val_key validation (fst nm))
           (fun nm => num_div (py_float (snd nm lg tg)) nb));
    [|exact Hkeys].
  intros nm Hnm. apply (Hnames (fst nm)). apply in_map. exact Hnm.
Qed.

Lemma values_after_invariant
    (step : gmap string Num -> BatchStep -> exn + gmap string Num)
    (Q : gmap string Num -> Prop) (steps : list BatchStep) :
  (forall st v v', In st steps -> Q v -> step v st = inr v' -> Q v') ->
  forall values values',
    Q values -> values_after step values steps = inr values' -> Q values'.
Proof.
  induction steps as [|st steps IH]; intros Hstep values values' HQ Hrun.
  - simpl in Hrun. injection Hrun as <-. exact HQ.
  - simpl in Hrun. destruct (step values st) as [e|v1] eqn:E; [discriminate|].
    apply (IH (fun st' v v' Hin => Hstep st' v v' (or_intror Hin)) v1);
      [|exact Hrun].
    apply (Hstep st values v1); [left; reflexivity|exact HQ|exact E].
Qed.

Lemma test_values_suffixed (nb : nat) (st : BatchStep)
    (values values' : gmap string Num) :
  keys_in suffixed values -> test_values nb values st = inr values' ->
  keys_in suffixed values'.
Proof.
  intros Hkeys. unfold test_values.
  destruct (call_update_metrics values nb (st_args st) (Some true))
    as [e|v1] eqn:E; [discriminate|].
  intros [= <-]. unfold test_aux.
  apply (fold_accumulate_keys suffixed
           (fun na : string * Num => fst na +:+ val_suffix)
           (fun na => num_div (snd na) nb)).
  - intros na _. exists (fst na). reflexivity.
  - unfold call_update_metrics in E.
    destruct (st_args st) as [|lg [|tg [|v [|x args]]]];
      try discriminate;
      (eapply (update_metrics_keys suffixed values v1 nb _ _ true);
       [intros name _; exists name; reflexivity|exact Hkeys|exact E]).
Qed.

Lemma train_values_known (nb : nat) (st : BatchStep)
    (values values' : gmap string Num) :
  (length (st_args st) <= 2)%nat -> produced st ->
  keys_in known_name values -> train_values nb values st = inr values' ->
  keys_in known_name values'.
Proof.
  intros Hlen [_ Haux] Hkeys. unfold train_values.
  assert (Ha : keys_in known_name (train_aux nb values (st_aux st))).
  { unfold train_aux.
    apply (fold_accumulate_keys known_name
             (fun na : string * Num => fst na)
             (fun na => num_div (py_float (snd na)) nb));
      [|exact Hkeys].
    intros na Hna. right.
    destruct Haux as [Hnil|(f & w & Hf & Hfw)].
    - rewrite Hnil in Hna. destruct Hna.
    - exists f, w. split; [exact Hf|]. rewrite Hfw. apply in_map. exact Hna. }
  unfold call_update_metrics.
  destruct (st_args st) as [|lg [|tg [|v args]]]; simpl in Hlen;
    try lia; intros Hrun;
    (eapply (update_metrics_keys known_name _ values' nb _ _ false);
     [intros name Hname; left; exact Hname|exact Ha|exact Hrun]).
Qed.

Lemma init_entry_lookup (values : gmap string Num) (name k : string) :
  init_entry values name !! k
  = if decide (k = name) then Some (default num_zero (values !! name))
    else values !! k.
Proof.
  unfold init_entry. destruct (values !! name) as [v|] eqn:E.
  - destruct (decide (k = name)) as [->|Hne]; [exact E|reflexivity].
  - destruct (decide (k = name)) as [->|Hne].
    + apply lookup_insert_eq.
    + apply lookup_insert_ne. congruence.
Qed.

(** X6.  [update_metrics] with [logits] and [target] present.  With
    [nb_batch] not 0 it returns, having added to the entry of every
    metric (created at 0 when missing) the float of the metric divided
    by [nb_batch], under the metric's name, suffixed with
    " on validation set" when [validation] is set, and left every other
    entry as it is.  With [nb_batch] 0 it raises [ZeroDivisionError] at
    the first metric, having created the entry of this metric at 0 when
    it was missing and changed nothing else in the dict; without any
    metric it returns and leaves the dict as it is. *)
Theorem update_metrics_entries (values : gmap string Num) (nb : nat)
    (lg tg : Out) (validation : bool) :
  (nb <> 0%nat ->
   exists values',
     update_metrics values nb (Some lg) (Some tg) validation
     = (inr tt, values')
     /\ (forall name metric, In (name, metric) metrics ->
           values' !! val_key validation name
           = Some (num_add
                     (default num_zero (values !! val_key validation name))
                     (num_div (py_float (metric lg tg)) nb)))
     /\ (forall k,
           (forall name, In name (List.map fst metrics) ->
                         val_key validation name <> k) ->
           values' !! k = values !! k))
  /\ (nb = 0%nat ->
      (forall name metric rest, metrics = (name, metric) :: rest ->
         exists msg values',
           update_metrics values nb (Some lg) (Some tg) validation
           = (inl (ZeroDivisionError msg), values')
           /\ values' !! val_key validation name
              = Some (default num_zero (values !! val_key validation name))
           /\ (forall k, k <> val_key validation name ->
                         values' !! k = values !! k))
      /\ (metrics = [] ->
          update_metrics values nb (Some lg) (Some tg) validation
          = (inr tt, values))).
Proof.
  split.
  - intros Hnb. exists (metrics_added values nb lg tg validation).
    split; [apply update_metrics_positive; exact Hnb|]. split.
    + intros name metric Hin.
      rewrite update_metrics_lookup, (entry_metric validation name metric Hin).
      reflexivity.
    + intros k Hk. rewrite update_metrics_lookup, entry_none; [reflexivity|].
      exact Hk.
  - intros ->. rewrite update_metrics_zero. split.
    + intros name metric rest ->. cbn [fst].
      exists "float division by zero",
             (init_entry values (val_key validation name)).
      split; [reflexivity|]. split.
      * rewrite init_entry_lookup.
        destruct (decide _) as [_|Hne]; [reflexivity|contradiction].
      * intros k Hk. rewrite init_entry_lookup.
        destruct (decide _) as [Heq|_]; [contradiction|reflexivity].
    + intros ->. reflexivity.
Qed.

(** X7.  Every key of the dict [values] that [test] returns ends with
    " on validation set", whatever the loss returns. *)
Theorem test_keys_suffixed (loader : Loader) (with_visuals : bool)
    (s s' : State) (r : TestResult) :
  test loader with_visuals s = (inr r, s') ->
  forall k, is_Some (res_values r !! k) ->
            exists name, k = name +:+ val_suffix.
Proof.
  intros Hrun.
  destruct (test_ok loader with_visuals s s' r Hrun)
    as (steps & evs & _ & _ & _ & Hvalues & _).
  apply (values_after_invariant (test_values (len loader))
           (keys_in suffixed) steps) with (values := ∅);
    [|apply keys_in_empty|exact Hvalues].
  intros st v v' _. apply test_values_suffixed.
Qed.

(** X8.  With a loss that returns at most [logits] and [target]
    besides the loss, every key of the dict [values] that [train]
    returns is the name of a metric or the name of an auxiliary loss
    that [get_aux_losses] returned. *)
Theorem train_keys_known (loader : Loader) (visualizer : option Visualizer)
    (s s' : State) (r : Num * gmap string Num) :
  loss_arity 2 ->
  train loader visualizer s = (inr r, s') ->
  forall k, is_Some (snd r !! k) ->
    In k (List.map fst metrics)
    \/ exists f w, get_aux_losses = Some f
                   /\ In k (List.map fst (fst (f w))).
Proof.
  intros Harity Hrun.
  destruct (train_ok loader visualizer s s' r Hrun)
    as (steps & evs & _ & Hall & _ & Hvalues & _).
  apply (values_after_invariant (train_values (len loader))
           (keys_in known_name) steps) with (values := ∅);
    [|apply keys_in_empty|exact Hvalues].
  intros st v v' Hin. apply train_values_known.
  - rewrite Forall_forall in Hall.
    destruct (Hall st) as [(z_i & z_j & lbl & w & Hl) _];
      [apply list_elem_of_In; exact Hin|].
    pose proof (Harity z_i z_j lbl w) as Hlen. rewrite Hl in Hlen. exact Hlen.
  - rewrite Forall_forall in Hall. apply Hall, list_elem_of_In, Hin.
Qed.

(** X9.  When [test] returns, its loss is
    [0 + l_1/nb_batch + ... + l_n/nb_batch], added in the order of the
    batches, [l_i] the float of the loss of batch [i]; every batch had
    its loss call. *)
Theorem test_loss_accumulated (loader : Loader) (with_visuals : bool)
    (s s' : State) (r : TestResult) :
  test loader with_visuals s = (inr r, s') ->
  exists steps evs,
    cycles (fun _ => test_cycle with_visuals) 0 (batches loader 0) steps evs
    /\ trace s' = (trace s ++ EvEvalMode :: evs)%list
    /\ length steps = len loader
    /\ res_loss r = test_loss (len loader) num_zero steps.
Proof.
  intros Hrun.
  destruct (test_ok loader with_visuals s s' r Hrun)
    as (steps & evs & Hcycles & _ & Htrace & _ & Hloss & _).
  exists steps, evs. split; [exact Hcycles|]. split; [exact Htrace|].
  split; [exact (cycles_length _ _ _ _ _ Hcycles)|exact Hloss].
Qed.
End Keys.

Section KeysRuns.
Import Toy Fixtures.

Lemma scored_loss_arity : @loss_arity scored 2.
Proof. intros z_i z_j lbl w. simpl. lia. Qed.

Lemma update_metrics_entries_witness :
  (exists values',
     @update_metrics scored ∅ 2 (Some 1) (Some 2) true = (inr tt, values')
     /\ values' !! "acc on validation set"
        = Some (@num_add scored (@num_zero scored)
                  (@num_div scored (@py_float scored (inject_Z (1 + 2))) 2)))
  /\ exists msg values',
       @update_metrics scored ∅ 0 (Some 1) (Some 2) true
       = (inl (ZeroDivisionError msg), values')
       /\ values' !! "acc on validation set" = Some (@num_zero scored).
Proof.
  split.
  - destruct (proj1 (@update_metrics_entries scored ∅ 2 1 2 true))
      as (values' & Hrun & Hacc & _); [discriminate|].
    exists values'. split; [exact Hrun|].
    apply (Hacc "acc" (fun lg tg : Z => inject_Z (lg + tg))). left. reflexivity.
  - destruct (proj1 (proj2 (@update_metrics_entries scored ∅ 0 1 2 true)
                       eq_refl)
                "acc" (fun lg tg : Z => inject_Z (lg + tg)) [] eq_refl)
      as (msg & values' & Hrun & Hacc & _).
    exists msg, values'. split; [exact Hrun|exact Hacc].
Defined.

Lemma test_keys_suffixed_witness :
  exists r s',
    @test scored scored_two true (state0 scored 0%nat) = (inr r, s')
    /\ forall k, is_Some (res_values r !! k) ->
                 exists name, k = name +:+ val_suffix.
Proof.
  destruct (@test_total scored scored_two true (state0 scored 0%nat)
              scored_loss_arity) as (r & s' & Hrun).
  - intros _. discriminate.
  - exists r, s'. split; [exact Hrun|].
    exact (@test_keys_suffixed scored scored_two true _ s' r Hrun).
Defined.

Lemma train_keys_known_witness :
  exists r s',
    @train scored scored_two None (state0 scored 0%nat) = (inr r, s')
    /\ forall k, is_Some (snd r !! k) ->
         In k (List.map fst (@metrics scored))
         \/ exists f w, @get_aux_losses scored = Some f
                        /\ In k (List.map fst (fst (f w))).
Proof.
  destruct (@train_total scored scored_two None (state0 scored 0%nat)
              scored_loss_arity) as (r & s' & Hrun).
  exists r, s'. split; [exact Hrun|].
  exact (@train_keys_known scored scored_two None _ s' r
           scored_loss_arity Hrun).
Defined.

Lemma test_loss_accumulated_witness :
  exists r s' steps evs,
    @test scored scored_two true (state0 scored 0%nat) = (inr r, s')
    /\ length steps = 2%nat
    /\ trace s' = (EvEvalMode :: evs)%list
    /\ res_loss r = @test_loss scored 2 (@num_zero scored) steps.
Proof.
  destruct (@test_total scored scored_two true (state0 scored 0%nat)
              scored_loss_arity) as (r & s' & Hrun).
  - intros _. discriminate.
  - destruct (@test_loss_accumulated scored scored_two true _ s' r Hrun)
      as (steps & evs & _ & Htrace & Hlen & Hloss).
    exists r, s', steps, evs. split; [exact Hrun|].
    split; [exact Hlen|]. split; [exact Htrace|exact Hloss].
Defined.
End KeysRuns.

(** ** Edge and error behaviour of [train] and [test] *)

Section Edges.
Context `{Host}.

(** The visuals gathered by one batch of [test], by its loop. *)
Lemma test_batch_visuals (nb : nat) (with_visuals : bool) (d : DataItem)
    (loss loss' : Num) (values values' : gmap string Num)
    (visuals visuals' : list Visuals) (s s' : State) :
  test_batch nb with_visuals d (loss, values, visuals) s
  = (inr (loss', values', visuals'), s') ->
  length visuals' = (length visuals + if with_visuals then 1 else 0)%nat.
Proof.
  unfold test_batch. rewrite bind_run.
  destruct (get_output_pairs_run (inputs d) s) as (z_i & z_j & w1 & -> & _).
  rewrite bind_run.
  destruct with_visuals.
  - unfold call_current_visuals.
    destruct get_current_visuals as [f|].
    + rewrite bind_run, call_run. unfold ret at 1.
      rewrite bind_run, call_loss_run. cbn [world trace fst snd].
      match goal with
      | |- context [loss_call ?a ?b ?c ?w] =>
          destruct (loss_call a b c w) as [[batch_loss args] w3]
      end.
      cbn [fst snd]. rewrite bind_run.
      destruct (call_update_metrics values nb args (Some true))
        as [e|values1]; [discriminate|].
      unfold lift, ret at 1. rewrite bind_run.
      match goal with
      | |- context [call_aux_losses ?s1] =>
          destruct (call_aux_losses_run s1) as (aux & w4 & -> & _)
      end.
      unfold ret. intros [= _ _ <- _]. rewrite length_app. reflexivity.
    + rewrite bind_run. unfold raise. discriminate.
  - unfold ret at 1. rewrite bind_run, call_loss_run. cbn [world trace fst snd].
    match goal with
    | |- context [loss_call ?a ?b ?c ?w] =>
        destruct (loss_call a b c w) as [[batch_loss args] w3]
    end.
    cbn [fst snd]. rewrite bind_run.
    destruct (call_update_metrics values nb args (Some true))
      as [e|values1]; [discriminate|].
    unfold lift, ret at 1. rewrite bind_run.
    match goal with
    | |- context [call_aux_losses ?s1] =>
        destruct (call_aux_losses_run s1) as (aux & w4 & -> & _)
    end.
    unfold ret. intros [= _ _ <- _]. lia.
Qed.

Lemma test_loop_visuals (nb : nat) (with_visuals : bool)
    (bs : list DataItem) :
  forall loss values visuals s loss' values' visuals' s',
    for_each bs (loss, values, visuals) (test_batch nb with_visuals) s
    = (inr (loss', values', visuals'), s') ->
    length visuals'
    = (length visuals + if with_visuals then length bs else 0)%nat.
Proof.
  induction bs as [|d bs IH];
    intros loss values visuals s loss' values' visuals' s'.
  - simpl. unfold ret. intros [= _ _ <- _]. destruct with_visuals; lia.
  - rewrite for_each_cons.
    destruct (test_batch nb with_visuals d (loss, values, visuals) s)
      as [[e|[[loss1 values1] visuals1]] s1] eqn:E; [discriminate|].
    apply test_batch_visuals in E. intros Hrest. apply IH in Hrest.
    rewrite Hrest, E. destruct with_visuals; simpl; lia.
Qed.
End Edges.

Module ToyMore.
Import Toy.

(** A model without [get_current_visuals]. *)
Definition blind : Host :=
  host [] None [] false (NoDup_nil_2 : NoDup (List.map fst [])) no_aux_nodup.

(** A loss that returns three extra outputs. *)
Definition triple : Host :=
  host [Some 1; Some 2; Some 0] None [] true
       (NoDup_nil_2 : NoDup (List.map fst [])) no_aux_nodup.

(** A loss that returns four extra outputs. *)
Definition quadruple : Host :=
  host [Some 1; Some 2; Some 0; Some 0] None [] true
       (NoDup_nil_2 : NoDup (List.map fst [])) no_aux_nodup.

Definition quadruple_one : @Loader quadruple :=
  @Build_Loader quadruple SequentialSampler
    (fun _ => [@Build_DataItem quadruple [(1, 2)] None]).
Definition blind_one : @Loader blind :=
  @Build_Loader blind SequentialSampler
    (fun _ => [@Build_DataItem blind [(1, 2)] None]).
Definition triple_one : @Loader triple :=
  @Build_Loader triple SequentialSampler
    (fun _ => [@Build_DataItem triple [(1, 2)] None]).
End ToyMore.

Section EdgeProperties.
Context `{Host}.

(** X10.  The visuals [test] returns: none without [with_visuals];
    with it, the empty list when the loader has no batch, and
    otherwise [np.concatenate] of one visual per batch. *)
Theorem test_visuals_result (loader : Loader) (with_visuals : bool)
    (s s' : State) (r : TestResult) :
  test loader with_visuals s = (inr r, s') ->
  (with_visuals = false -> res_visuals r = None)
  /\ (with_visuals = true -> batches loader 0 = [] ->
      res_visuals r = Some (VisList []))
  /\ (with_visuals = true -> batches loader 0 <> [] ->
      exists vs, length vs = len loader
                 /\ res_visuals r = Some (VisArray (np_concatenate vs))).
Proof.
  unfold test. rewrite bind_run, call__run, bind_run.
  destruct (for_each _ _ _ _) as [[e|[[loss values] visuals]] s1] eqn:E;
    [discriminate|].
  apply test_loop_visuals in E. simpl in E.
  unfold ret. intros [= <- <-]. simpl.
  split; [intros ->; reflexivity|]. split.
  - intros -> Hnil. rewrite Hnil in E. simpl in E.
    destruct visuals; [reflexivity|discriminate].
  - intros -> Hne. exists visuals. split; [exact E|].
    destruct visuals as [|v visuals]; [|reflexivity].
    simpl in E. destruct (batches loader 0); [congruence|discriminate].
Qed.

(** X11.  [test] with [with_visuals] and a model that has no
    [get_current_visuals] raises [AttributeError] on the first batch,
    after the two calls of the model and before the loss is called. *)
Theorem test_visuals_unavailable (loader : Loader) (s : State)
    (d : DataItem) (bs : list DataItem) :
  get_current_visuals = None -> batches loader 0 = d :: bs ->
  exists z_i z_j w',
    test loader true s
    = (inl (AttributeError "object has no attribute 'get_current_visuals'"),
       {| world := w';
          trace := (trace s ++
                    [EvEvalMode;
                     EvModel (List.map fst (inputs d)) z_i;
                     EvModel (List.map snd (inputs d)) z_j])%list |}).
Proof.
  intros Hnone Hbs. unfold test.
  rewrite bind_run, call__run, bind_run, Hbs, for_each_cons.
  unfold test_batch. rewrite bind_run.
  match goal with
  | |- context [get_output_pairs (inputs d) ?s1] =>
      destruct (get_output_pairs_run (inputs d) s1)
        as (z_i & z_j & w1 & -> & _)
  end.
  exists z_i, z_j, w1. rewrite bind_run. unfold call_current_visuals.
  rewrite Hnone, bind_run. unfold raise. cbn [trace].
  rewrite <- app_assoc. reflexivity.
Qed.

(** X12.  When the loss returns three or more extra outputs, [test]
    (which passes [validation=True] itself) raises [TypeError] on its
    first batch, once the loss of that batch is computed and before
    the auxiliary losses are read. *)
Theorem test_too_many_outputs (loader : Loader) (with_visuals : bool)
    (s : State) (d : DataItem) (bs : list DataItem) :
  (forall z_i z_j lbl w,
     (3 <= length (snd (fst (loss_call z_i z_j lbl w))))%nat) ->
  (with_visuals = true -> get_current_visuals <> None) ->
  batches loader 0 = d :: bs ->
  exists msg z_i z_j vis res w',
    test loader with_visuals s
    = (inl (TypeError msg),
       {| world := w';
          trace := (trace s ++
                    [EvEvalMode;
                     EvModel (List.map fst (inputs d)) z_i;
                     EvModel (List.map snd (inputs d)) z_j] ++
                    vis ++ [EvLoss z_i z_j (labels d) res])%list |})
    /\ Forall is_visual vis.
Proof.
  intros Hthree Hvisuals Hbs. unfold test.
  rewrite bind_run, call__run, bind_run, Hbs, for_each_cons.
  unfold test_batch. rewrite bind_run.
  match goal with
  | |- context [get_output_pairs (inputs d) ?s1] =>
      destruct (get_output_pairs_run (inputs d) s1)
        as (z_i & z_j & w1 & -> & _)
  end.
  rewrite bind_run. cbn [trace].
  assert (Hvis : exists visuals' vis w2,
            (if with_visuals
             then let* v := call_current_visuals in
                  ret ([] ++ [v])%list
             else ret [])
              {| world := w1;
                 trace := ((trace s ++ [EvEvalMode]) ++
                           [EvModel (List.map fst (inputs d)) z_i;
                            EvModel (List.map snd (inputs d)) z_j])%list |}
            = (inr visuals',
               {| world := w2;
                  trace := (((trace s ++ [EvEvalMode]) ++
                             [EvModel (List.map fst (inputs d)) z_i;
                              EvModel (List.map snd (inputs d)) z_j]) ++ vis)%list |})
            /\ Forall is_visual vis).
  { destruct with_visuals.
    - unfold call_current_visuals.
      destruct get_current_visuals as [f|];
        [|exfalso; exact (Hvisuals eq_refl eq_refl)].
      rewrite bind_run, call_run. cbn [world trace]. unfold ret.
      eexists _, [EvVisuals _], _. split; [reflexivity|repeat constructor].
    - eexists _, [], w1. unfold ret. rewrite app_nil_r.
      split; [reflexivity|constructor]. }
  destruct Hvis as (visuals' & vis & w2 & -> & Hall).
  rewrite bind_run, call_loss_run. cbn [world trace].
  pose proof (Hthree z_i z_j (labels d) w2) as Hlen.
  destruct (loss_call z_i z_j (labels d) w2) as [[batch_loss args] w3].
  cbn [fst snd] in *. rewrite bind_run.
  assert (Herr : exists msg,
             call_update_metrics ∅ (len loader) args (Some true)
             = inl (TypeError msg)).
  { destruct args as [|lg [|tg [|v [|x args]]]]; simpl in Hlen; try lia;
      eexists; reflexivity. }
  destruct Herr as (msg & ->).
  exists msg, z_i, z_j, vis, (batch_loss, args), w3.
  split; [|exact Hall]. unfold lift, raise.
  rewrite <- !app_assoc. reflexivity.
Qed.

(** X16.  When the loss returns four or more extra outputs, [train]
    raises [TypeError] on its first batch, but only after the whole
    cycle of that batch: the backward pass and the optimizer step
    have been made. *)
Theorem train_too_many_outputs (loader : Loader)
    (visualizer : option Visualizer) (s : State)
    (d : DataItem) (bs : list DataItem) :
  (forall z_i z_j lbl w,
     (4 <= length (snd (fst (loss_call z_i z_j lbl w))))%nat) ->
  batches loader 0 = d :: bs ->
  exists st evs w',
    train loader visualizer s
    = (inl (TypeError "update_metrics() takes from 3 to 6 positional arguments"),
       {| world := w';
          trace := (trace s ++ EvTrainMode :: evs)%list |})
    /\ train_cycle visualizer 0 d st evs.
Proof.
  intros Hfour Hbs. unfold train.
  rewrite bind_run, call__run, bind_run, Hbs, for_each_cons.
  match goal with
  | |- context [train_batch ?nb visualizer d (?v, ?it, ?l) ?s1] =>
      destruct (train_batch_run nb visualizer d v it l s1)
        as (st & w1 & evs & Hcycle & [(z_i & z_j & lbl & w & Hl) _] & ->)
  end.
  exists st, evs, w1. split; [|exact Hcycle].
  pose proof (Hfour z_i z_j lbl w) as Hlen. rewrite Hl in Hlen.
  simpl in Hlen. unfold train_values, call_update_metrics.
  destruct (st_args st) as [|lg [|tg [|v [|x args]]]]; simpl in Hlen;
    try lia.
  cbn [trace]. rewrite <- app_assoc. reflexivity.
Qed.

(** X13.  On a loader without batches [train] only puts the model in
    training mode and returns [np.mean] of the empty list with an
    empty dict; [test] only puts the model in evaluation mode and
    returns the loss 0, an empty dict and no visuals (the empty list
    when asked for them). *)
Theorem empty_loader (loader : Loader) (visualizer : option Visualizer)
    (with_visuals : bool) (s : State) :
  batches loader 0 = [] ->
  train loader visualizer s
  = (inr (np_mean [], ∅),
     {| world := model_train (world s);
        trace := (trace s ++ [EvTrainMode])%list |})
  /\ test loader with_visuals s
     = (inr {| res_y := []; res_y_true := []; res_X := [];
               res_loss := num_zero; res_values := ∅;
               res_visuals := if with_visuals then Some (VisList [])
                              else None |},
        {| world := model_eval (world s);
           trace := (trace s ++ [EvEvalMode])%list |}).
Proof.
  intros Hnil. unfold train, test.
  rewrite !bind_run, !call__run, !bind_run, Hnil. split; reflexivity.
Qed.


End EdgeProperties.

(** X15.  An adapter raises exactly when the parent raises on the
    first draw, or on the second, with the parent's error, or when
    the two views have different shapes, with the [ValueError] of
    [np.stack]; the generator is left where the failing step left
    it. *)
Theorem adapter_errors (OpenBHB : ParentDataset) (idx : Z)
    (g g' : @Rng OpenBHB) (e : exn) :
  SimCLROpenBHB_getitem OpenBHB idx g = (inl e, g')
  <-> super_getitem idx (np_random_seed g) = (inl e, g')
      \/ (exists x1 y1 g1,
            super_getitem idx (np_random_seed g) = (inr (x1, y1), g1)
            /\ super_getitem idx g1 = (inl e, g'))
      \/ (exists x1 y1 g1 x2 y2,
            super_getitem idx (np_random_seed g) = (inr (x1, y1), g1)
            /\ super_getitem idx g1 = (inr (x2, y2), g')
            /\ same_shape x1 x2 = false
            /\ e = ValueError "all input arrays must have the same shape").
Proof.
  unfold SimCLROpenBHB_getitem, Dataset.getitem, Dataset.np_stack.
  destruct (super_getitem idx (np_random_seed g)) as [[e1|[x1 y1]] g1] eqn:E1.
  - split.
    + intros [= <- <-]. left. reflexivity.
    + intros [Hf|[(x & y & g0 & Hf & _)|(x & y & g0 & x2 & y2 & Hf & _)]];
        congruence.
  - destruct (super_getitem idx g1) as [[e2|[x2 y2]] g2] eqn:E2.
    + split.
      * intros [= <- <-]. right. left. exists x1, y1, g1. split; auto.
      * intros [Hf|[(x & y & g0 & Hf & Hs)|(x & y & g0 & x' & y' & Hf & Hs & _)]];
          [discriminate| |];
          injection Hf as <- <- <-; rewrite E2 in Hs; congruence.
    + destruct (same_shape x1 x2) eqn:Es.
      * split; [discriminate|].
        intros [Hf|[(x & y & g0 & Hf & Hs)|(x & y & g0 & x' & y' & Hf & Hs & Hsh & _)]];
          [discriminate| |];
          injection Hf as <- <- <-; rewrite E2 in Hs;
          [discriminate|injection Hs as <- <- <-; congruence].
      * split.
        -- intros [= <- <-]. right. right. exists x1, y1, g1, x2, y2.
           repeat split; auto.
        -- intros [Hf|[(x & y & g0 & Hf & Hs)|(x & y & g0 & x' & y' & Hf & Hs & _ & ->)]];
             [discriminate| |];
             injection Hf as <- <- <-; rewrite E2 in Hs;
             [discriminate|injection Hs as <- <- <-; reflexivity].
Qed.

Section EdgeRuns.
Import Toy Fixtures ToyMore.

Lemma test_visuals_result_witness :
  exists r s' vs,
    @test scored scored_two true (state0 scored 0%nat) = (inr r, s')
    /\ length vs = 2%nat
    /\ res_visuals r = Some (VisArray (@np_concatenate scored vs)).
Proof.
  destruct (@test_total scored scored_two true (state0 scored 0%nat)
              scored_loss_arity) as (r & s' & Hrun).
  - intros _. discriminate.
  - destruct (@test_visuals_result scored scored_two true _ s' r Hrun)
      as (_ & _ & Hsome).
    destruct (Hsome eq_refl) as (vs & Hlen & Hvis); [discriminate|].
    exists r, s', vs. split; [exact Hrun|]. split; [exact Hlen|exact Hvis].
Defined.

Lemma test_visuals_unavailable_witness :
  exists (z_i z_j : list (@Feat blind)) (w' : @World blind),
    @test blind blind_one true (state0 blind 0%nat)
    = (inl (AttributeError "object has no attribute 'get_current_visuals'"),
       @Build_State blind w'
         [@EvEvalMode blind; @EvModel blind [1] z_i; @EvModel blind [2] z_j]).
Proof.
  exact (@test_visuals_unavailable blind blind_one (state0 blind 0%nat)
           (@Build_DataItem blind [(1, 2)] None) [] eq_refl eq_refl).
Defined.

Lemma test_too_many_outputs_witness :
  exists (msg : string) (z_i z_j : list (@Feat triple))
         (vis : list (@Event triple)) res (w' : @World triple),
    @test triple triple_one false (state0 triple 0%nat)
    = (inl (TypeError msg),
       @Build_State triple w'
         ([@EvEvalMode triple; @EvModel triple [1] z_i;
           @EvModel triple [2] z_j] ++
          vis ++ [@EvLoss triple z_i z_j None res])%list)
    /\ Forall (@is_visual triple) vis.
Proof.
  apply (@test_too_many_outputs triple triple_one false
           (state0 triple 0%nat) (@Build_DataItem triple [(1, 2)] None) []).
  - intros z_i z_j lbl w. simpl. lia.
  - discriminate.
  - reflexivity.
Defined.

Lemma train_too_many_outputs_witness :
  exists (st : @BatchStep quadruple) (evs : list (@Event quadruple))
         (w' : @World quadruple),
    @train quadruple quadruple_one None (state0 quadruple 0%nat)
    = (inl (TypeError "update_metrics() takes from 3 to 6 positional arguments"),
       @Build_State quadruple w' (@EvTrainMode quadruple :: evs))
    /\ In (@EvStep quadruple) evs.
Proof.
  destruct (@train_too_many_outputs quadruple quadruple_one None
              (state0 quadruple 0%nat)
              (@Build_DataItem quadruple [(1, 2)] None) [])
    as (st & evs & w' & Hrun & vis & -> & _).
  - intros z_i z_j lbl w. simpl. lia.
  - reflexivity.
  - eexists st, _, w'. split; [exact Hrun|].
    simpl. right. right. right. right. right. left. reflexivity.
Defined.

Lemma empty_loader_witness :
  @train scored scored_none None (state0 scored 0%nat)
  = (inr (@np_mean scored [], ∅),
     @Build_State scored 0%nat [@EvTrainMode scored])
  /\ @test scored scored_none true (state0 scored 0%nat)
     = (inr (@Build_TestResult scored [] [] [] (@num_zero scored) ∅
               (Some (VisList []))),
        @Build_State scored 0%nat [@EvEvalMode scored]).
Proof.
  exact (@empty_loader scored scored_none None true (state0 scored 0%nat)
           eq_refl).
Defined.
End EdgeRuns.

(** ** When [train] refreshes the visualizer *)

Section Cadence.
Context `{Host}.

(** Batch number [it] refreshes: a visualizer is given and [it] is a
    multiple of 40. *)
Definition refreshes (visualizer : option Visualizer) (it : nat) : bool :=
  match visualizer with
  | Some _ => Nat.eqb (it mod 40) 0
  | None => false
  end.

(** The events of a refresh: the metrics are refreshed and, when the
    model has [get_current_visuals], its visuals are displayed. *)
Definition refresh_trace (vis : list Event) : Prop :=
  match get_current_visuals with
  | Some _ => exists v, vis = [EvRefresh; EvVisuals v; EvDisplay v]
  | None => vis = [EvRefresh]
  end.

(** The cycle of [train] on batch [b] at iteration [it], the events of
    the visualizer exactly. *)
Definition train_cycle_exact (visualizer : option Visualizer) (it : nat)
    (b : DataItem) (st : BatchStep) (evs : list Event) : Prop :=
  exists vis : list Event,
    evs = ([EvZeroGrad] ++ forward_events b st ++
           [loss_event b st; EvBackward (st_loss st); EvStep] ++
           aux_events (st_aux st) ++ vis)%list
    /\ (if refreshes visualizer it then refresh_trace vis else vis = []).

Lemma refresh_visuals_exact (visualizer : option Visualizer) (it : nat)
    (s : State) :
  exists vis w',
    refresh_visuals visualizer it s
    = (inr tt, {| world := w'; trace := (trace s ++ vis)%list |})
    /\ (if refreshes visualizer it then refresh_trace vis else vis = []).
Proof.
  assert (Hidle : refreshes visualizer it = false ->
             @ret _ unit tt s
             = (inr tt, {| world := world s; trace := (trace s ++ [])%list |})).
  { intros _. unfold ret. rewrite app_nil_r. destruct s. reflexivity. }
  unfold refresh_visuals, refreshes.
  destruct visualizer as [vz|].
  - destruct (Nat.eqb (it mod 40) 0).
    + rewrite bind_run, call__run. unfold refresh_trace.
      destruct get_current_visuals as [f|].
      * rewrite bind_run, call_run, call__run. cbn [world trace].
        eexists [EvRefresh; EvVisuals _; EvDisplay _], _.
        rewrite <- !app_assoc. split; [reflexivity|]. eexists. reflexivity.
      * exists [EvRefresh]. eexists. unfold ret. split; reflexivity.
    + exists [], (world s). unfold ret. rewrite app_nil_r. destruct s.
      split; reflexivity.
  - destruct (Nat.eqb (it mod 40) 0);
      exists [], (world s); unfold ret; rewrite app_nil_r; destruct s;
      split; reflexivity.
Qed.

Lemma train_batch_exact (nb : nat) (visualizer : option Visualizer)
    (d : DataItem) (values : gmap string Num) (it : nat) (losses : list Num)
    (s : State) :
  exists st w' evs r,
    train_cycle_exact visualizer it d st evs
    /\ train_batch nb visualizer d (values, it, losses) s
       = (r, {| world := w'; trace := (trace s ++ evs)%list |})
    /\ (forall acc', r = inr acc' -> snd (fst acc') = (it + 1)%nat).
Proof.
  unfold train_batch.
  rewrite bind_run, call__run, bind_run.
  destruct (get_output_pairs_run (inputs d)
              {| world := zero_grad (world s);
                 trace := (trace s ++ [EvZeroGrad])%list |})
    as (z_i & z_j & w1 & Hfwd & _).
  rewrite Hfwd, bind_run, call_loss_run. cbn [world trace].
  destruct (loss_call z_i z_j (labels d) w1) as [[batch_loss args] w2] eqn:El.
  cbn [fst snd].
  rewrite bind_run, call__run, bind_run, call__run, bind_run.
  cbn [world trace].
  match goal with
  | |- context [call_aux_losses ?s1] =>
      destruct (call_aux_losses_run s1) as (aux & w3 & Haux & _)
  end.
  rewrite Haux, bind_run. cbn [world trace].
  match goal with
  | |- context [refresh_visuals _ _ ?s1] =>
      destruct (refresh_visuals_exact visualizer it s1)
        as (vis & w4 & Hvis & Hexact)
  end.
  rewrite Hvis, bind_run. cbn [world trace].
  exists {| st_zi := z_i; st_zj := z_j; st_loss := batch_loss;
            st_args := args; st_aux := aux |}, w4.
  exists ([EvZeroGrad] ++
          [EvModel (List.map fst (inputs d)) z_i;
           EvModel (List.map snd (inputs d)) z_j] ++
          [EvLoss z_i z_j (labels d) (batch_loss, args);
           EvBackward batch_loss; EvStep] ++ aux_events aux ++ vis)%list.
  match goal with
  | |- context [lift ?c] => destruct c as [e|values'] eqn:Ev
  end.
  - exists (inl e). split; [exists vis; split; [reflexivity|exact Hexact]|].
    split; [|discriminate]. unfold lift, raise.
    rewrite <- !app_assoc. reflexivity.
  - exists (inr (values', (it + 1)%nat,
                 (losses ++ [tensor_float batch_loss])%list)).
    split; [exists vis; split; [reflexivity|exact Hexact]|].
    split; [|intros acc' [= <-]; reflexivity]. unfold lift, ret.
    rewrite <- !app_assoc. reflexivity.
Qed.

Lemma train_loop_exact (nb : nat) (visualizer : option Visualizer)
    (bs : list DataItem) :
  forall values it losses s acc' s',
    for_each bs (values, it, losses) (train_batch nb visualizer) s
    = (inr acc', s') ->
    exists steps evs,
      cycles (train_cycle_exact visualizer) it bs steps evs
      /\ trace s' = (trace s ++ evs)%list.
Proof.
  induction bs as [|d bs IH]; intros values it losses s acc' s'.
  - simpl. unfold ret. intros [= _ <-]. exists [], [].
    rewrite app_nil_r. split; [constructor|reflexivity].
  - rewrite for_each_cons.
    destruct (train_batch_exact nb visualizer d values it losses s)
      as (st & w1 & evs1 & r & Hcycle & -> & Hit).
    destruct r as [e|[[values1 it1] losses1]]; [discriminate|].
    pose proof (Hit _ eq_refl) as Hit1. simpl in Hit1. subst it1.
    intros Hrest. apply IH in Hrest as (steps & evs & Hcycles & Htrace).
    exists (st :: steps), (evs1 ++ evs)%list. split.
    + constructor; [exact Hcycle|].
      replace (S it) with (it + 1)%nat by lia. exact Hcycles.
    + rewrite Htrace. cbn [trace]. rewrite app_assoc. reflexivity.
Qed.

(** X17.  When [train] returns, batch number [i] (from 0) has, after
    its optimizer step and the reading of the auxiliary losses, a
    refresh of the visualizer exactly when a visualizer is given and
    [i] is a multiple of 40; the refresh displays the model's visuals
    when the model has [get_current_visuals], and only refreshes the
    metrics otherwise. *)
Theorem train_visualizer_cadence (loader : Loader)
    (visualizer : option Visualizer) (s s' : State)
    (r : Num * gmap string Num) :
  train loader visualizer s = (inr r, s') ->
  exists steps evs,
    trace s' = (trace s ++ EvTrainMode :: evs)%list
    /\ cycles (train_cycle_exact visualizer) 0 (batches loader 0) steps evs.
Proof.
  unfold train. rewrite bind_run, call__run, bind_run.
  destruct (for_each _ _ _ _) as [[e|acc'] s1] eqn:E; [discriminate|].
  apply train_loop_exact in E as (steps & evs & Hcycles & Htrace).
  destruct acc' as [[values it] losses]. unfold ret. intros [= _ <-].
  exists steps, evs. split; [|exact Hcycles].
  rewrite Htrace. cbn [trace]. rewrite <- app_assoc. reflexivity.
Qed.
End Cadence.

Section CadenceRuns.
Import Toy Fixtures.

Lemma train_visualizer_cadence_witness :
  exists r s' steps evs,
    @train plain labelled_three (Some tt) s0 = (inr r, s')
    /\ trace s' = (@EvTrainMode plain :: evs)%list
    /\ @cycles plain (@train_cycle_exact plain (Some tt)) 0
         (batches labelled_three 0) steps evs.
Proof.
  destruct (@train_total plain labelled_three (Some tt) s0)
    as (r & s' & Hrun).
  - intros z_i z_j lbl w. simpl. lia.
  - destruct (@train_visualizer_cadence plain labelled_three (Some tt)
                s0 s' r Hrun) as (steps & evs & Htrace & Hcycles).
    exists r, s', steps, evs. split; [exact Hrun|].
    split; [exact Htrace|exact Hcycles].
Defined.
End CadenceRuns.

(** ** [test] leaves the model's parameters alone *)

Section Evaluation.
Context `{Host}.











End Evaluation.
